(** * process-questionnaire.py: feedback scoring and the pending-payment list

    A shallow embedding of [scripts/process-questionnaire.py].

    - Python [str] values are lists of Unicode code points ([pystr]), so
      [len] is [length] and [in] is the sublist test [contains].  A text
      is taken to be well formed (no lone surrogate), as the UTF-8 output
      file requires of what is written to it.
    - A spreadsheet cell is one of the scalars [pandas.read_excel] hands to
      the loop ([cell]); [str(cell)] is [str_of_cell].  A column label is
      a header cell as pandas keeps it ([label]): text, a number or a date.
    - Exceptions are the [Raise] results of the [res] type; the batch
      function also threads a [world] (clock, random source, files, stdout).
      A file is kept as the text written to it; writing under a name
      replaces the file of that name.  A run that raises has no world:
      what it leaves behind is not described.
    - [json.dump] and [json.load] follow the encoder and the decoder of
      CPython's [json] package for the options the script passes.
    - What the script takes from outside is a parameter of the section:
      the Unicode lower-case table beyond ASCII, [repr] and [float] on
      finite doubles, [uuid.uuid4] and [datetime.now]. *)

From Stdlib Require Import ZArith NArith List Bool Lia Ascii String PrimFloat.
From Stdlib Require Import DecimalPos FloatOps SpecFloat.
Import ListNotations.
Local Open Scope Z_scope.

(* ================================================================== *)
(** ** Python strings *)

Definition pystr := list N.

(** An ASCII literal of the source, as code points. *)
Definition lit (s : string) : pystr :=
  map N_of_ascii (list_ascii_of_string s).

(** [len(s)] *)
Definition len {A} (s : list A) : Z := Z.of_nat (List.length s).

(** [s == t] on strings *)
Fixpoint str_eqb (s t : pystr) : bool :=
  match s, t with
  | [], [] => true
  | a :: s', b :: t' => N.eqb a b && str_eqb s' t'
  | _, _ => false
  end.

(** [s.startswith(p)] *)
Fixpoint startswith (p s : pystr) : bool :=
  match p, s with
  | [], _ => true
  | a :: p', b :: s' => N.eqb a b && startswith p' s'
  | _ :: _, [] => false
  end.

(** [w in s]: [w] occurs in [s] as a contiguous run. *)
Fixpoint contains (w s : pystr) : bool :=
  startswith w s ||
  match s with
  | [] => false
  | _ :: s' => contains w s'
  end.

(** [sep.join(parts)] *)
Fixpoint join (sep : pystr) (parts : list pystr) : pystr :=
  match parts with
  | [] => []
  | [p] => p
  | p :: rest => p ++ sep ++ join sep rest
  end.

(** [range(lo, hi)] *)
Definition range (lo hi : nat) : list nat := seq lo (hi - lo).

(** ASCII half of [str.lower()]: [A-Z] move to [a-z]. *)
Definition ascii_lower (c : N) : N :=
  if (N.leb 65 c && N.leb c 90)%bool then (c + 32)%N else c.

(* ================================================================== *)
(** ** Exceptions *)

(** [RecursionError] is what the decoder raises when its fuel runs out. *)
Inductive exn := IndexError | TypeError | JSONDecodeError | RecursionError.

Inductive res (A : Type) :=
| Ok (a : A)
| Raise (e : exn).
Arguments Ok {A} a.
Arguments Raise {A} e.

Definition rbind {A B} (r : res A) (k : A -> res B) : res B :=
  match r with
  | Ok a => k a
  | Raise e => Raise e
  end.

Declare Scope res_scope.
Delimit Scope res_scope with res.
Notation "x <- r ;; k" := (rbind r (fun x => k))
  (at level 61, r at next level, right associativity) : res_scope.

(** A list comprehension whose element expression may raise. *)
Fixpoint comprehension {A B} (f : A -> res B) (l : list A) : res (list B) :=
  match l with
  | [] => Ok []
  | a :: l' =>
      (b <- f a ;;
       bs <- comprehension f l' ;;
       Ok (b :: bs))%res
  end.

(* ================================================================== *)
(** ** Cells, rows and tables *)

(** A Python float: not-a-number, an infinity, or a finite double. *)
Inductive pyfloat :=
| FNaN
| FInf (negative : bool)
| FFin (x : float).

(** The value of one spreadsheet cell as the loop sees it.  An empty cell
    is [CFloat FNaN]; a date cell is a pandas Timestamp, kept by the text
    [str] gives for it.  On a sheet of integers only the row has an
    integer dtype and [row.iloc[i]] is a [numpy.int64] ([CInt64]); a
    [numpy.float64] is a Python float and is a [CFloat].  (A sheet of
    booleans only has [numpy.bool_] cells; its rows score 1, so none of
    its cells reaches [json.dump].) *)
Inductive cell :=
| CStr (s : pystr)
| CInt (z : Z)
| CFloat (f : pyfloat)
| CBool (b : bool)
| CTimestamp (text : pystr)
| CInt64 (z : Z).

(** A column label, and so a key of [row.to_dict()]: a header cell as
    pandas keeps it, a text, a number or a date (kept by the text [str]
    gives for it). *)
Inductive label :=
| LStr (s : pystr)
| LInt (z : Z)
| LFloat (f : pyfloat)
| LBool (b : bool)
| LTimestamp (text : pystr).

(** [float(x) == z] for a finite double and an int, compared exactly. *)
Definition float_is_int (x : float) (z : Z) : bool :=
  match Prim2SF x with
  | S754_zero _ => Z.eqb z 0
  | S754_finite negative m e =>
      let v := if negative then Z.neg m else Z.pos m in
      if 0 <=? e then Z.eqb z (v * 2 ^ e) else Z.eqb (z * 2 ^ (- e)) v
  | _ => false
  end.

Definition pyfloat_is_int (f : pyfloat) (z : Z) : bool :=
  match f with
  | FFin x => float_is_int x z
  | _ => false
  end.

(** [f == g] on floats: a NaN equals nothing. *)
Definition pyfloat_eqb (f g : pyfloat) : bool :=
  match f, g with
  | FInf a, FInf b => Bool.eqb a b
  | FFin x, FFin y => PrimFloat.eqb x y
  | _, _ => false
  end.

Definition int_of_bool (b : bool) : Z := if b then 1 else 0.

(** [a == b] on dict keys: texts by their characters, numbers (bools
    among them) by their value, dates by their instant, and nothing
    across these kinds.  Each label is an object of its own, so a NaN
    label equals no other label. *)
Definition label_eqb (a b : label) : bool :=
  match a, b with
  | LStr s, LStr t => str_eqb s t
  | LTimestamp s, LTimestamp t => str_eqb s t
  | LInt y, LInt z => Z.eqb y z
  | LInt y, LBool c => Z.eqb y (int_of_bool c)
  | LBool b, LInt z => Z.eqb (int_of_bool b) z
  | LBool b, LBool c => Bool.eqb b c
  | LFloat f, LFloat g => pyfloat_eqb f g
  | LFloat f, LInt z => pyfloat_is_int f z
  | LInt y, LFloat g => pyfloat_is_int g y
  | LFloat f, LBool c => pyfloat_is_int f (int_of_bool c)
  | LBool b, LFloat g => pyfloat_is_int g (int_of_bool b)
  | _, _ => false
  end.

(** A pandas Series: one row, with the column labels as its index. *)
Record Series := mkSeries {
  index : list label;
  values : list cell
}.

(** A pandas DataFrame: the header labels and the rows below them. *)
Record DataFrame := mkDataFrame {
  columns : list label;
  data : list (list cell)
}.

(** [row.iloc[i]] for [i >= 0] *)
Definition iloc (row : Series) (i : nat) : res cell :=
  match nth_error (values row) i with
  | Some c => Ok c
  | None => Raise IndexError
  end.

(** Decimal digits of [str(int)]. *)
Fixpoint uint_digits (u : Decimal.uint) : pystr :=
  match u with
  | Decimal.Nil => []
  | Decimal.D0 u' => 48%N :: uint_digits u'
  | Decimal.D1 u' => 49%N :: uint_digits u'
  | Decimal.D2 u' => 50%N :: uint_digits u'
  | Decimal.D3 u' => 51%N :: uint_digits u'
  | Decimal.D4 u' => 52%N :: uint_digits u'
  | Decimal.D5 u' => 53%N :: uint_digits u'
  | Decimal.D6 u' => 54%N :: uint_digits u'
  | Decimal.D7 u' => 55%N :: uint_digits u'
  | Decimal.D8 u' => 56%N :: uint_digits u'
  | Decimal.D9 u' => 57%N :: uint_digits u'
  end.

(** [str(z)] / [int.__repr__(z)] *)
Definition str_of_int (z : Z) : pystr :=
  match z with
  | Z0 => [48%N]
  | Zpos p => uint_digits (Pos.to_uint p)
  | Zneg p => 45%N :: uint_digits (Pos.to_uint p)
  end.

(** The six keywords of the scorer: 建议 希望 应该 可以 改进 优化 *)
Definition keywords : list pystr :=
  [ [0x5EFA; 0x8BAE]; [0x5E0C; 0x671B]; [0x5E94; 0x8BE5];
    [0x53EF; 0x4EE5]; [0x6539; 0x8FDB]; [0x4F18; 0x5316] ]%N.

Section Program.

(** [_PyUnicode_ToLowerFull] on non-ASCII code points, from the Unicode
    database, and the final-sigma context test of [str.lower()]. *)
Variable ToLowerFull : N -> list N.
Variable final_sigma : pystr -> pystr -> bool.

(** [float.__repr__] of a finite double (shortest round-trip decimal). *)
Variable repr_finite : float -> pystr.

(** One code point of [str.lower()], with the text before and after it. *)
Definition lower_ucs4 (before : pystr) (c : N) (after : pystr) : list N :=
  if N.ltb c 128 then [ascii_lower c]
  else if N.eqb c 0x3A3 then
    [if final_sigma before after then 0x3C2%N else 0x3C3%N]
  else ToLowerFull c.

Fixpoint do_lower (before s : pystr) : pystr :=
  match s with
  | [] => []
  | c :: after => lower_ucs4 before c after ++ do_lower (before ++ [c]) after
  end.

(** [s.lower()] *)
Definition lower (s : pystr) : pystr := do_lower [] s.

(** [str(f)] for a float *)
Definition str_of_float (f : pyfloat) : pystr :=
  match f with
  | FNaN => lit "nan"
  | FInf false => lit "inf"
  | FInf true => lit "-inf"
  | FFin x => repr_finite x
  end.

(** [str(c)] for a cell *)
Definition str_of_cell (c : cell) : pystr :=
  match c with
  | CStr s => s
  | CInt z => str_of_int z
  | CFloat f => str_of_float f
  | CBool true => lit "True"
  | CBool false => lit "False"
  | CTimestamp text => text
  | CInt64 z => str_of_int z
  end.

(** The body of the scorer's [for text in text_fields] loop. *)
Definition loop_step (score : Z) (text : pystr) : Z :=
  if (len text >? 10) && negb (str_eqb text (lit "nan"))
  then score + 1 else score.

(** [assess_feedback_quality(row)] *)
Definition assess_feedback_quality (row : Series) : res Z :=
  let score := 0 in
  let score := score + 1 in
  (text_fields <-
     comprehension (fun i => c <- iloc row i ;; Ok (str_of_cell c)) (range 4 8) ;;
   let score :=
     fold_left loop_step text_fields score in
   let full_text := lower (join (lit " ") text_fields) in
   let score :=
     if existsb (fun word => contains word full_text) keywords
     then score + 1 else score in
   Ok (Z.min score 5))%res.

(** The scorer without the ['nan'] test in the loop. *)
Definition assess_feedback_quality_length_only (row : Series) : res Z :=
  let score := 0 in
  let score := score + 1 in
  (text_fields <-
     comprehension (fun i => c <- iloc row i ;; Ok (str_of_cell c)) (range 4 8) ;;
   let score :=
     fold_left
       (fun score text => if len text >? 10 then score + 1 else score)
       text_fields score in
   let full_text := lower (join (lit " ") text_fields) in
   let score :=
     if existsb (fun word => contains word full_text) keywords
     then score + 1 else score in
   Ok (Z.min score 5))%res.

(** *** The scoring rule in the specification's words *)

(** The string forms of the four text fields, positions 4 to 7. *)
Definition text_forms (row : Series) : list pystr :=
  map str_of_cell (firstn 4 (skipn 4 (values row))).

(** A field earns a point: longer than 10 and not the sentinel. *)
Definition earns_point (text : pystr) : bool :=
  (10 <? len text) && negb (str_eqb text (lit "nan")).

(** The keyword bonus: 1 when the lowered, space-joined text holds a keyword. *)
Definition keyword_bonus (texts : list pystr) : Z :=
  if existsb (fun word => contains word (lower (join (lit " ") texts))) keywords
  then 1 else 0.

Definition reference_score (texts : list pystr) : Z :=
  Z.min (1 + len (filter earns_point texts) + keyword_bonus texts) 5.

(* ================================================================== *)
(** ** Python values that reach [json.dump] *)

(** Objects [json] has no encoding for. *)
Inductive foreign :=
| Timestamp (text : pystr)
| Int64 (z : Z).

#[local] Set Warnings "-register-all".
Inductive pyval :=
| PNone
| PBool (b : bool)
| PInt (z : Z)
| PFloat (f : pyfloat)
| PStr (s : pystr)
| PForeign (x : foreign)
| PList (items : list pyval)
| PDict (items : list (label * pyval)).

Definition pyval_of_cell (c : cell) : pyval :=
  match c with
  | CStr s => PStr s
  | CInt z => PInt z
  | CFloat f => PFloat f
  | CBool b => PBool b
  | CTimestamp text => PForeign (Timestamp text)
  | CInt64 z => PForeign (Int64 z)
  end.

(** [d[k] = v] on an insertion-ordered dict: the value goes under the
    key already there that equals [k], or [k] is added at the end. *)
Fixpoint dict_set {V} (d : list (label * V)) (k : label) (v : V)
  : list (label * V) :=
  match d with
  | [] => [(k, v)]
  | (k', v') :: d' =>
      if label_eqb k' k then (k', v) :: d' else (k', v') :: dict_set d' k v
  end.

(** [dict(pairs)] *)
Definition dict_of_pairs {V} (pairs : list (label * V)) : list (label * V) :=
  fold_left (fun d kv => dict_set d (fst kv) (snd kv)) pairs [].

(** The Python scalar a Series hands out for a value when it is
    iterated: a [numpy.int64] comes out as an [int]. *)
Definition box_native (c : cell) : cell :=
  match c with
  | CInt64 z => CInt z
  | _ => c
  end.

(** [row.to_dict()] *)
Definition to_dict (row : Series) : list (label * cell) :=
  dict_of_pairs (combine (index row) (map box_native (values row))).

(** [df.iterrows()], without the row numbers the loop ignores. *)
Definition iterrows (df : DataFrame) : list Series :=
  map (mkSeries (columns df)) (data df).

(** The dict literal [payment_info]. *)
Record payment_info := mkPayment {
  id : pystr;
  feedback_code : cell;
  alipay_account : cell;
  amount : pyfloat;
  quality_score : Z;
  created_at : pystr;
  payment_status : pystr;
  feedback_data : list (label * cell)
}.

(** [payment_info] as the dict [json.dump] walks, keys in literal order. *)
Definition as_dict (p : payment_info) : pyval :=
  PDict
    [ (LStr (lit "id"), PStr (id p));
      (LStr (lit "feedback_code"), pyval_of_cell (feedback_code p));
      (LStr (lit "alipay_account"), pyval_of_cell (alipay_account p));
      (LStr (lit "amount"), PFloat (amount p));
      (LStr (lit "quality_score"), PInt (quality_score p));
      (LStr (lit "created_at"), PStr (created_at p));
      (LStr (lit "payment_status"), PStr (payment_status p));
      (LStr (lit "feedback_data"),
        PDict (map (fun kv => (fst kv, pyval_of_cell (snd kv))) (feedback_data p))) ].

(* ================================================================== *)
(** ** [json.dump(obj, f, ensure_ascii=False, indent=2)] *)

Definition hex_digit (n : N) : N :=
  if N.ltb n 10 then (48 + n)%N else (87 + n)%N.

(** ['\\u{0:04x}'.format(c)] *)
Definition escape_u (c : N) : pystr :=
  [92; 117]%N ++
  [ hex_digit (N.modulo (N.div c 4096) 16); hex_digit (N.modulo (N.div c 256) 16);
    hex_digit (N.modulo (N.div c 16) 16); hex_digit (N.modulo c 16) ].

(** [ESCAPE_DCT] / the replacement of one character by [encode_basestring]. *)
Definition escape_char (c : N) : pystr :=
  if N.eqb c 92 then [92; 92]%N
  else if N.eqb c 34 then [92; 34]%N
  else if N.eqb c 8 then [92; 98]%N
  else if N.eqb c 12 then [92; 102]%N
  else if N.eqb c 10 then [92; 110]%N
  else if N.eqb c 13 then [92; 114]%N
  else if N.eqb c 9 then [92; 116]%N
  else if N.ltb c 32 then escape_u c
  else [c].

(** [encode_basestring(s)] (the encoder for [ensure_ascii=False]) *)
Definition encode_basestring (s : pystr) : pystr :=
  [34%N] ++ flat_map escape_char s ++ [34%N].

(** ['\n' + ' ' * (2 * level)] *)
Definition newline_indent (level : nat) : pystr :=
  10%N :: repeat 32%N (2 * level).

(** [floatstr(o)] of the encoder, with [allow_nan] left at [True]. *)
Definition floatstr (f : pyfloat) : pystr :=
  match f with
  | FNaN => lit "NaN"
  | FInf false => lit "Infinity"
  | FInf true => lit "-Infinity"
  | FFin x => repr_finite x
  end.

(** The loop of [_iterencode_list] over the elements: each chunk is the
    separator ([newline] before the first element) and the element's text. *)
Fixpoint encode_elements (encode : pyval -> res pystr) (newline separator : pystr)
  (first : bool) (lst : list pyval) : res pystr :=
  match lst with
  | [] => Ok []
  | value :: rest =>
      (text <- encode value ;;
       more <- encode_elements encode newline separator false rest ;;
       Ok ((if first then newline else separator) ++ text ++ more))%res
  end.

(** The key of a dict item as [_iterencode_dict] writes it: a str as it
    is, a float by [floatstr], a bool as [true] or [false], an int by
    its digits; on any other key it raises [TypeError]. *)
Definition key_text (key : label) : res pystr :=
  match key with
  | LStr s => Ok s
  | LFloat f => Ok (floatstr f)
  | LBool true => Ok (lit "true")
  | LBool false => Ok (lit "false")
  | LInt z => Ok (str_of_int z)
  | LTimestamp _ => Raise TypeError
  end.

(** The loop of [_iterencode_dict] over the items: separator, key,
    [': '] and the value's text. *)
Fixpoint encode_members (encode : pyval -> res pystr) (newline separator : pystr)
  (first : bool) (dct : list (label * pyval)) : res pystr :=
  match dct with
  | [] => Ok []
  | (key, value) :: rest =>
      (key <- key_text key ;;
       text <- encode value ;;
       more <- encode_members encode newline separator false rest ;;
       Ok ((if first then newline else separator)
           ++ encode_basestring key ++ [58; 32]%N ++ text ++ more))%res
  end.

(** [_iterencode] with [indent=2], all chunks joined.  [level] is
    [_current_indent_level].  A Timestamp or a [numpy.int64] has no
    encoding: [default] raises [TypeError]. *)
Fixpoint iterencode (level : nat) (o : pyval) {struct o} : res pystr :=
  match o with
  | PStr s => Ok (encode_basestring s)
  | PNone => Ok (lit "null")
  | PBool true => Ok (lit "true")
  | PBool false => Ok (lit "false")
  | PInt z => Ok (str_of_int z)
  | PFloat f => Ok (floatstr f)
  | PForeign _ => Raise TypeError
  | PList [] => Ok (lit "[]")
  | PList lst =>
      (body <- encode_elements (iterencode (S level)) (newline_indent (S level))
                 (44%N :: newline_indent (S level)) true lst ;;
       Ok ([91%N] ++ body ++ newline_indent level ++ [93%N]))%res
  | PDict [] => Ok (lit "{}")
  | PDict dct =>
      (body <- encode_members (iterencode (S level)) (newline_indent (S level))
                 (44%N :: newline_indent (S level)) true dct ;;
       Ok ([123%N] ++ body ++ newline_indent level ++ [125%N]))%res
  end.

(** The text [json.dump] writes for [obj]. *)
Definition json_dump (obj : pyval) : res pystr := iterencode 0 obj.

(* ================================================================== *)
(** ** The world of the batch run *)

(** The number of clock and random reads so far, the files on disk (path
    and text, the one written last first) and the lines printed. *)
Record world := mkWorld {
  ticks : nat;
  files : list (pystr * pystr);
  stdout : list pystr
}.

Definition M (A : Type) : Type := world -> res (A * world).

Definition ret {A} (a : A) : M A := fun w => Ok (a, w).

Definition bind {A B} (m : M A) (k : A -> M B) : M B :=
  fun w =>
    match m w with
    | Ok (a, w') => k a w'
    | Raise e => Raise e
    end.

Definition lift {A} (r : res A) : M A :=
  fun w =>
    match r with
    | Ok a => Ok (a, w)
    | Raise e => Raise e
    end.

Declare Scope M_scope.
Delimit Scope M_scope with M.
Notation "x <- m ;; k" := (bind m (fun x => k))
  (at level 61, m at next level, right associativity) : M_scope.
Notation "m ;;; k" := (bind m (fun _ => k))
  (at level 61, right associativity) : M_scope.

(** [str(uuid.uuid4())], [datetime.now().isoformat()] and
    [datetime.now().strftime("%Y%m%d")] at the n-th read of the world. *)
Variable uuid4_str : nat -> pystr.
Variable now_isoformat : nat -> pystr.
Variable now_Ymd : nat -> pystr.

Definition advance (w : world) : world :=
  mkWorld (S (ticks w)) (files w) (stdout w).

Definition new_uuid : M pystr := fun w => Ok (uuid4_str (ticks w), advance w).
Definition timestamp : M pystr := fun w => Ok (now_isoformat (ticks w), advance w).
Definition today : M pystr := fun w => Ok (now_Ymd (ticks w), advance w).

(** The files left when the one called [name] is taken away. *)
Definition remove_file (name : pystr) (fs : list (pystr * pystr))
  : list (pystr * pystr) :=
  filter (fun f => negb (str_eqb (fst f) name)) fs.

(** [open(name, 'w')] and the writes of [json.dump]: a file of that name
    is replaced, the other files stay. *)
Definition write_file (name text : pystr) : M unit :=
  fun w => Ok (tt, mkWorld (ticks w) ((name, text) :: remove_file name (files w))
                           (stdout w)).

(** [print(line)] *)
Definition print (line : pystr) : M unit :=
  fun w => Ok (tt, mkWorld (ticks w) (files w) (stdout w ++ [line])).

(** The file a path names now. *)
Fixpoint read_file (fs : list (pystr * pystr)) (name : pystr) : option pystr :=
  match fs with
  | [] => None
  | (n, text) :: fs' => if str_eqb n name then Some text else read_file fs' name
  end.

(* ================================================================== *)
(** ** The batch processor *)

(** The body of [for index, row in df.iterrows()], over the rows left. *)
Fixpoint for_each_row (rows : list Series) (payment_list : list payment_info)
  : M (list payment_info) :=
  match rows with
  | [] => ret payment_list
  | row :: rest =>
      (feedback_code <- lift (iloc row 1) ;;
       alipay_account <- lift (iloc row 2) ;;
       quality_score <- lift (assess_feedback_quality row) ;;
       if quality_score >=? 3 then
         id <- new_uuid ;;
         created_at <- timestamp ;;
         let payment_info :=
           {| id := id;
              feedback_code := feedback_code;
              alipay_account := alipay_account;
              amount := FFin 3.00%float;
              quality_score := quality_score;
              created_at := created_at;
              payment_status := lit "pending";
              feedback_data := to_dict row |} in
         for_each_row rest (payment_list ++ [payment_info])
       else for_each_row rest payment_list)%M
  end.

(** The name of the output file, [payment_list_<YYYYMMDD>.json]. *)
Definition output_name (stamp : pystr) : pystr :=
  lit "payment_list_" ++ stamp ++ lit ".json".

(** The line printed at the end: 处理完成！有效反馈数量: n *)
Definition summary_line (n : nat) : pystr :=
  [0x5904; 0x7406; 0x5B8C; 0x6210; 0xFF01; 0x6709; 0x6548; 0x53CD; 0x9988;
   0x6570; 0x91CF; 0x3A; 0x20]%N ++ str_of_int (Z.of_nat n).

(** [process_questionnaire_responses], from the table [pd.read_excel]
    returned on. *)
Definition process_questionnaire_responses (df : DataFrame)
  : M (list payment_info) :=
  (payment_list <- for_each_row (iterrows df) [] ;;
   stamp <- today ;;
   text <- lift (json_dump (PList (map as_dict payment_list))) ;;
   write_file (output_name stamp) text ;;;
   print (summary_line (List.length payment_list)) ;;;
   ret payment_list)%M.

(* ================================================================== *)
(** ** [json.load]: the decoder that reads the file back *)

(** [float(token)] on a number token with a fraction or an exponent. *)
Variable parse_float : pystr -> pyfloat.

Definition is_ws (c : N) : bool :=
  N.eqb c 32 || N.eqb c 9 || N.eqb c 10 || N.eqb c 13.

(** [WHITESPACE.match(s, end).end()] *)
Fixpoint skip_ws (s : pystr) : pystr :=
  match s with
  | [] => []
  | c :: s' => if is_ws c then skip_ws s' else s
  end.

Definition is_digit (c : N) : bool := N.leb 48 c && N.leb c 57.

Definition hex_value (c : N) : option N :=
  if N.leb 48 c && N.leb c 57 then Some (c - 48)%N
  else if N.leb 97 c && N.leb c 102 then Some (c - 87)%N
  else if N.leb 65 c && N.leb c 70 then Some (c - 55)%N
  else None.

(** [_decode_uXXXX]: four hex digits, or nothing. *)
Definition decode_uXXXX (h1 h2 h3 h4 : N) : option N :=
  match hex_value h1, hex_value h2, hex_value h3, hex_value h4 with
  | Some a, Some b, Some c, Some d => Some (4096 * a + 256 * b + 16 * c + d)%N
  | _, _, _, _ => None
  end.

(** The [BACKSLASH] table. *)
Definition backslash (esc : N) : option N :=
  if N.eqb esc 34 then Some 34%N
  else if N.eqb esc 92 then Some 92%N
  else if N.eqb esc 47 then Some 47%N
  else if N.eqb esc 98 then Some 8%N
  else if N.eqb esc 102 then Some 12%N
  else if N.eqb esc 110 then Some 10%N
  else if N.eqb esc 114 then Some 13%N
  else if N.eqb esc 116 then Some 9%N
  else None.

Definition prepend (c : N) (r : res (pystr * pystr)) : res (pystr * pystr) :=
  match r with
  | Ok (str, rest) => Ok (c :: str, rest)
  | Raise e => Raise e
  end.

(** [scanstring(s, end)] in strict mode, from just after the opening
    quote: the decoded string and the text after the closing quote. *)
Fixpoint scanstring (s : pystr) : res (pystr * pystr) :=
  match s with
  | [] => Raise JSONDecodeError
  | c :: s1 =>
      if N.eqb c 34 then Ok ([], s1)
      else if N.eqb c 92 then
        match s1 with
        | [] => Raise JSONDecodeError
        | esc :: s2 =>
            if N.eqb esc 117 then
              match s2 with
              | h1 :: h2 :: h3 :: h4 :: s3 =>
                  match decode_uXXXX h1 h2 h3 h4 with
                  | None => Raise JSONDecodeError
                  | Some uni =>
                      if N.leb 0xD800 uni && N.leb uni 0xDBFF then
                        match s3 with
                        | b :: u :: s3' =>
                            if N.eqb b 92 && N.eqb u 117 then
                              match s3' with
                              | l1 :: l2 :: l3 :: l4 :: s4 =>
                                  match decode_uXXXX l1 l2 l3 l4 with
                                  | None => Raise JSONDecodeError
                                  | Some uni2 =>
                                      if N.leb 0xDC00 uni2 && N.leb uni2 0xDFFF then
                                        prepend
                                          (0x10000 +
                                           N.lor (N.shiftl (uni - 0xD800) 10)
                                                 (uni2 - 0xDC00))%N
                                          (scanstring s4)
                                      else prepend uni (scanstring s3)
                                  end
                              | _ => Raise JSONDecodeError
                              end
                            else prepend uni (scanstring s3)
                        | _ => prepend uni (scanstring s3)
                        end
                      else prepend uni (scanstring s3)
                  end
              | _ => Raise JSONDecodeError
              end
            else
              match backslash esc with
              | Some char => prepend char (scanstring s2)
              | None => Raise JSONDecodeError
              end
        end
      else if N.ltb c 32 then Raise JSONDecodeError
      else prepend c (scanstring s1)
  end.

(** The longest run of digits at the head of [s], and what follows. *)
Fixpoint span_digits (s : pystr) : pystr * pystr :=
  match s with
  | [] => ([], [])
  | c :: s' =>
      if is_digit c
      then let (ds, rest) := span_digits s' in (c :: ds, rest)
      else ([], s)
  end.

(** The first group of [NUMBER_RE]: an optional minus, then a lone 0 or
    a digit 1-9 followed by digits. *)
Definition match_integer (s : pystr) : option (pystr * pystr) :=
  let (sign, s1) :=
    match s with
    | c :: s' => if N.eqb c 45 then ([45%N], s') else ([], s)
    | [] => ([], s)
    end in
  match s1 with
  | [] => None
  | c :: s2 =>
      if N.eqb c 48 then Some (sign ++ [48%N], s2)
      else if is_digit c
      then let (ds, rest) := span_digits s2 in Some (sign ++ c :: ds, rest)
      else None
  end.

(** The second, optional group: a dot and at least one digit. *)
Definition match_frac (s : pystr) : pystr * pystr :=
  match s with
  | c :: s' =>
      if N.eqb c 46 then
        match span_digits s' with
        | ([], _) => ([], s)
        | (ds, rest) => (c :: ds, rest)
        end
      else ([], s)
  | [] => ([], s)
  end.

(** The third, optional group: e or E, an optional sign, and at least
    one digit. *)
Definition match_exp (s : pystr) : pystr * pystr :=
  match s with
  | c :: s' =>
      if N.eqb c 101 || N.eqb c 69 then
        let (sign, s1) :=
          match s' with
          | g :: s'' => if N.eqb g 45 || N.eqb g 43 then ([g], s'') else ([], s')
          | [] => ([], s')
          end in
        match span_digits s1 with
        | ([], _) => ([], s)
        | (ds, rest) => (c :: sign ++ ds, rest)
        end
      else ([], s)
  | [] => ([], s)
  end.

(** [NUMBER_RE.match(s, idx)]: the three groups and the text after them. *)
Definition match_number (s : pystr) : option (pystr * pystr * pystr * pystr) :=
  match match_integer s with
  | None => None
  | Some (integer, s1) =>
      let (frac, s2) := match_frac s1 in
      let (exp, s3) := match_exp s2 in
      Some (integer, frac, exp, s3)
  end.

(** The digits of a token back as a decimal number. *)
Fixpoint digits_uint (s : pystr) : Decimal.uint :=
  match s with
  | [] => Decimal.Nil
  | c :: s' =>
      let u := digits_uint s' in
      match (c - 48)%N with
      | 0%N => Decimal.D0 u
      | 1%N => Decimal.D1 u
      | 2%N => Decimal.D2 u
      | 3%N => Decimal.D3 u
      | 4%N => Decimal.D4 u
      | 5%N => Decimal.D5 u
      | 6%N => Decimal.D6 u
      | 7%N => Decimal.D7 u
      | 8%N => Decimal.D8 u
      | _ => Decimal.D9 u
      end
  end.

(** [int(token)] on the integer group of a number. *)
Definition parse_int (token : pystr) : Z :=
  match token with
  | c :: ds =>
      if N.eqb c 45 then (- Z.of_N (N.of_uint (digits_uint ds)))
      else Z.of_N (N.of_uint (digits_uint token))
  | [] => 0
  end.

Definition nonempty {A} (l : list A) : bool :=
  match l with [] => false | _ :: _ => true end.

(** [s] without its first [n] characters. *)
Definition advance_by (n : nat) (s : pystr) : pystr := skipn n s.

(** [scan_once], [JSONArray] and [JSONObject] of the decoder.  [fuel]
    bounds the depth of calls; [json_load] gives one unit per character. *)
Fixpoint scan_once (fuel : nat) (s : pystr) {struct fuel}
  : res (pyval * pystr) :=
  match fuel with
  | O => Raise RecursionError
  | S fuel' =>
      match s with
      | [] => Raise JSONDecodeError
      | nextchar :: s' =>
          if N.eqb nextchar 34 then
            match scanstring s' with
            | Ok (str, rest) => Ok (PStr str, rest)
            | Raise e => Raise e
            end
          else if N.eqb nextchar 123 then
            match skip_ws s' with
            | c :: s1 =>
                if N.eqb c 125 then Ok (PDict [], s1)
                else if N.eqb c 34 then
                  match object_items fuel' s1 with
                  | Ok (pairs, rest) => Ok (PDict (dict_of_pairs pairs), rest)
                  | Raise e => Raise e
                  end
                else Raise JSONDecodeError
            | [] => Raise JSONDecodeError
            end
          else if N.eqb nextchar 91 then
            match skip_ws s' with
            | c :: s1 =>
                if N.eqb c 93 then Ok (PList [], s1)
                else
                  match array_items fuel' (c :: s1) with
                  | Ok (values, rest) => Ok (PList values, rest)
                  | Raise e => Raise e
                  end
            | [] => Raise JSONDecodeError
            end
          else if startswith (lit "null") s then Ok (PNone, advance_by 4 s)
          else if startswith (lit "true") s then Ok (PBool true, advance_by 4 s)
          else if startswith (lit "false") s then Ok (PBool false, advance_by 5 s)
          else
            match match_number s with
            | Some (integer, frac, exp, rest) =>
                if nonempty frac || nonempty exp
                then Ok (PFloat (parse_float (integer ++ frac ++ exp)), rest)
                else Ok (PInt (parse_int integer), rest)
            | None =>
                if startswith (lit "NaN") s
                then Ok (PFloat FNaN, advance_by 3 s)
                else if startswith (lit "Infinity") s
                then Ok (PFloat (FInf false), advance_by 8 s)
                else if startswith (lit "-Infinity") s
                then Ok (PFloat (FInf true), advance_by 9 s)
                else Raise JSONDecodeError
            end
      end
  end

with array_items (fuel : nat) (s : pystr) {struct fuel}
  : res (list pyval * pystr) :=
  match fuel with
  | O => Raise RecursionError
  | S fuel' =>
      match scan_once fuel' s with
      | Raise e => Raise e
      | Ok (value, s1) =>
          match skip_ws s1 with
          | c :: s2 =>
              if N.eqb c 93 then Ok ([value], s2)
              else if N.eqb c 44 then
                match array_items fuel' (skip_ws s2) with
                | Ok (values, rest) => Ok (value :: values, rest)
                | Raise e => Raise e
                end
              else Raise JSONDecodeError
          | [] => Raise JSONDecodeError
          end
      end
  end

with object_items (fuel : nat) (s : pystr) {struct fuel}
  : res (list (label * pyval) * pystr) :=
  match fuel with
  | O => Raise RecursionError
  | S fuel' =>
      match scanstring s with
      | Raise e => Raise e
      | Ok (key, s1) =>
          match skip_ws s1 with
          | c :: s2 =>
              if N.eqb c 58 then
                match scan_once fuel' (skip_ws s2) with
                | Raise e => Raise e
                | Ok (value, s3) =>
                    match skip_ws s3 with
                    | d :: s4 =>
                        if N.eqb d 125 then Ok ([(LStr key, value)], s4)
                        else if N.eqb d 44 then
                          match skip_ws s4 with
                          | q :: s5 =>
                              if N.eqb q 34 then
                                match object_items fuel' s5 with
                                | Ok (pairs, rest) => Ok ((LStr key, value) :: pairs, rest)
                                | Raise e => Raise e
                                end
                              else Raise JSONDecodeError
                          | [] => Raise JSONDecodeError
                          end
                        else Raise JSONDecodeError
                    | [] => Raise JSONDecodeError
                    end
                end
              else Raise JSONDecodeError
          | [] => Raise JSONDecodeError
          end
      end
  end.

(** [json.load(f)] on the text of the file: one value, then only
    whitespace. *)
Definition json_load (text : pystr) : res pyval :=
  if startswith [0xFEFF%N] text then Raise JSONDecodeError
  else
    match scan_once (S (List.length text)) (skip_ws text) with
    | Raise e => Raise e
    | Ok (obj, rest) =>
        match skip_ws rest with
        | [] => Ok obj
        | _ :: _ => Raise JSONDecodeError
        end
    end.

(* ================================================================== *)
(** ** Vocabulary of the statements *)

(** The row's score is 3 or more (and the scorer returns on it). *)
Definition qualifies (row : Series) : bool :=
  match assess_feedback_quality row with
  | Ok score => score >=? 3
  | Raise _ => false
  end.

(** The record [p] is the one the loop builds from [row]. *)
Definition made_from (p : payment_info) (row : Series) : Prop :=
  iloc row 1 = Ok (feedback_code p) /\
  iloc row 2 = Ok (alipay_account p) /\
  assess_feedback_quality row = Ok (quality_score p) /\
  feedback_data p = to_dict row /\
  amount p = FFin 3.00%float /\
  payment_status p = lit "pending".

(** [json.dump] has an encoding for the cell (a Timestamp and a
    [numpy.int64] have none). *)
Definition cell_serializable (c : cell) : bool :=
  match c with
  | CTimestamp _ => false
  | CInt64 _ => false
  | _ => true
  end.

(** [json.dump] can write the label as a key (a Timestamp it cannot). *)
Definition label_serializable (l : label) : bool :=
  match l with
  | LTimestamp _ => false
  | _ => true
  end.

(** No Timestamp and no [numpy.int64] anywhere inside the value, and no
    Timestamp among the keys. *)
Fixpoint serializable (o : pyval) : bool :=
  match o with
  | PForeign _ => false
  | PList items => forallb serializable items
  | PDict items =>
      forallb (fun kv => label_serializable (fst kv) && serializable (snd kv)) items
  | _ => true
  end.

(** The label is a text. *)
Definition is_str (l : label) : bool :=
  match l with
  | LStr _ => true
  | _ => false
  end.

(** No key equals a later one, as among the keys of every dict. *)
Fixpoint keys_distinct (keys : list label) : bool :=
  match keys with
  | [] => true
  | k :: rest => forallb (fun k' => negb (label_eqb k k')) rest && keys_distinct rest
  end.

(** [k] equals none of the keys stored before it. *)
Definition fresh_after (keys : list label) (k : label) : bool :=
  forallb (fun k' => negb (label_eqb k' k)) keys.

(** The depth of decoder calls a value needs. *)
Fixpoint size (o : pyval) : nat :=
  match o with
  | PList items => S (fold_right (fun v n => S (size v + n)) 0%nat items)
  | PDict items => S (fold_right (fun kv n => S (size (snd kv) + n)) 0%nat items)
  | _ => 1%nat
  end.

(** A character that cannot continue a number token. *)
Definition delimits (rest : pystr) : bool :=
  match rest with
  | [] => true
  | c :: _ =>
      negb (is_digit c || N.eqb c 46 || N.eqb c 101 || N.eqb c 69
            || N.eqb c 43 || N.eqb c 45)
  end.

(** [token] is, as a whole, a number with a fraction or an exponent. *)
Definition float_token (token : pystr) : bool :=
  match match_number token with
  | Some (_, frac, exp, []) => nonempty frac || nonempty exp
  | _ => false
  end.

(** [repr] and [float] agree on the finite double [x]: its [repr] is a
    float token and reads back as [x]. *)
Definition float_faithful (x : float) : Prop :=
  float_token (repr_finite x) = true /\
  parse_float (repr_finite x) = FFin x.

(** A value the decoder gives back unchanged from any encoding it has:
    dict keys are strings, and distinct (as in every Python dict), and
    its finite floats are faithful.  (A Timestamp or a [numpy.int64] has
    no encoding at all.) *)
Inductive loadable : pyval -> Prop :=
| loadable_None : loadable PNone
| loadable_Bool b : loadable (PBool b)
| loadable_Int z : loadable (PInt z)
| loadable_NaN : loadable (PFloat FNaN)
| loadable_Inf neg : loadable (PFloat (FInf neg))
| loadable_Fin x : float_faithful x -> loadable (PFloat (FFin x))
| loadable_Str s : loadable (PStr s)
| loadable_List items : Forall loadable items -> loadable (PList items)
| loadable_Dict items :
    forallb is_str (map fst items) = true ->
    keys_distinct (map fst items) = true ->
    Forall (fun kv => loadable (snd kv)) items ->
    loadable (PDict items)
| loadable_Foreign x : loadable (PForeign x).

(** The finite floats among the cells of a record. *)
Definition cell_floats (c : cell) : list float :=
  match c with
  | CFloat (FFin x) => [x]
  | _ => []
  end.

Definition record_floats (p : payment_info) : list float :=
  match amount p with FFin x => [x] | _ => [] end
  ++ cell_floats (feedback_code p)
  ++ cell_floats (alipay_account p)
  ++ flat_map (fun kv => cell_floats (snd kv)) (feedback_data p).

(** The first character of an encoded value: no whitespace, no closing
    bracket, no byte-order mark. *)
Definition starts_value (text : pystr) : bool :=
  match text with
  | [] => false
  | c :: _ => negb (is_ws c) && negb (N.eqb c 93) && negb (N.eqb c 0xFEFF)
  end.

(** What the decoder makes of a matched number. *)
Definition number_value (integer frac exp : pystr) : pyval :=
  if nonempty frac || nonempty exp
  then PFloat (parse_float (integer ++ frac ++ exp))
  else PInt (parse_int integer).

(** The decoder gives [o] back from its encoding at any indent level,
    whatever delimiter follows, when the fuel covers [size o]. *)
Definition reads_back (o : pyval) : Prop :=
  forall level text, iterencode level o = Ok text ->
  forall fuel rest, (size o <= fuel)%nat -> delimits rest = true ->
  scan_once fuel (text ++ rest) = Ok (o, rest).

Definition elements_size (items : list pyval) : nat :=
  fold_right (fun v n => S (size v + n)) 0%nat items.

Definition members_size (items : list (label * pyval)) : nat :=
  fold_right (fun kv n => S (size (snd kv) + n)) 0%nat items.

(** The encoding of [o] is at least [size o] characters long. *)
Definition fits (o : pyval) : Prop :=
  loadable o -> forall level text,
  iterencode level o = Ok text -> (size o <= List.length text)%nat.

(** Every row has the 8 cells the loop and the scorer index. *)
Definition wide_enough (df : DataFrame) : Prop :=
  Forall (fun r => (8 <= List.length r)%nat) (data df).

(** Every cell of every qualifying row has a JSON encoding, and every
    label of such a row can be written as a key. *)
Definition exportable (df : DataFrame) : Prop :=
  Forall (fun row => qualifies row = true ->
                     Forall (fun c => cell_serializable c = true) (values row) /\
                     Forall (fun l => label_serializable l = true) (index row))
         (iterrows df).

(** The world after the run: one more clock read, the file written under
    the day's name in place of any file of that name, the summary line
    printed last. *)
Definition after_export (w : world) (text : pystr) (n : nat) : world :=
  mkWorld (S (ticks w))
          ((output_name (now_Ymd (ticks w)), text)
             :: remove_file (output_name (now_Ymd (ticks w))) (files w))
          (stdout w ++ [summary_line n]).

(* ================================================================== *)
(** ** Further vocabulary *)

(** The twelve characters of the keywords. *)
Definition keyword_chars : list N := List.concat keywords.

(** What the scorer's keyword test needs of the Unicode lower-case
    table: it leaves the keyword characters alone, no other character
    lowers to text holding one of them, and no character lowers to the
    empty string. *)
Definition table_respects_keywords : Prop :=
  (forall c, In c keyword_chars -> ToLowerFull c = [c]) /\
  (forall c k, In k keyword_chars -> In k (ToLowerFull c) -> c = k) /\
  (forall c, ToLowerFull c <> []).

(** The labels of the table are distinct and every row has one cell per
    label, as in a frame [pd.read_excel] returns. *)
Definition well_labelled (df : DataFrame) : Prop :=
  keys_distinct (columns df) = true /\
  Forall (fun r => List.length r = List.length (columns df)) (data df).

(* ================================================================== *)
(** ** A sample export *)

(** Stand-ins for what the run takes from outside: a lower-case table
    that leaves non-ASCII characters alone, a [repr] and [float] for the
    one double of the sample (3.0), and a counter-driven clock and
    random source. *)
Definition sample_ToLowerFull (c : N) : list N := [c].
Definition sample_final_sigma (before after : pystr) : bool := false.
Definition sample_repr (x : float) : pystr := lit "3.0".
Definition sample_float (token : pystr) : pyfloat := FFin 3.00%float.
Definition sample_uuid4 (n : nat) : pystr :=
  lit "0b9f6c1e-7d1a-4a58-9c55-00000000000" ++ str_of_int (Z.of_nat n).
Definition sample_isoformat (n : nat) : pystr :=
  lit "2024-05-01T09:30:0" ++ str_of_int (Z.of_nat n).
Definition sample_Ymd (n : nat) : pystr := lit "20240501".

Definition empty_cell : cell := CFloat FNaN.

(** Two answers longer than 10 characters: score 3. *)
Definition sample_row_long : list cell :=
  [ CStr (lit "2024/5/1 9:12"); CStr (lit "FB-0001"); CInt 13800138000;
    empty_cell;
    CStr (lit "The upload step failed twice for me.");
    CStr (lit "Search results load " ++ [34%N] ++ lit "slowly" ++ [34%N; 9%N]
            ++ lit "on mobile devices.");
    empty_cell; empty_cell ].

(** Nothing answered: score 1. *)
Definition sample_row_blank : list cell :=
  [ CStr (lit "2024/5/1 9:20"); CStr (lit "FB-0002"); CInt 13900139000;
    empty_cell; empty_cell; CStr []; empty_cell; empty_cell ].

(** Only the keyword 建议 in one answer: score 2. *)
Definition sample_row_keyword : list cell :=
  [ CStr (lit "2024/5/1 9:31"); CStr (lit "FB-0003"); CStr (lit "a@b.cn");
    empty_cell; CStr [0x5EFA; 0x8BAE]%N; empty_cell; empty_cell; empty_cell ].

(** One long answer that also holds 希望, and one more long answer:
    score 4. *)
Definition sample_row_keyword_long : list cell :=
  [ CStr (lit "2024/5/1 9:40"); CStr (lit "FB-0004"); CInt 13700137000;
    CBool true;
    CStr ([0x5E0C; 0x671B]%N ++ lit " a dark mode, please add one");
    CStr (lit "Parsing is accurate on my resumes.");
    empty_cell; CInt 5 ].

Definition sample_columns : list label :=
  map (fun s => LStr (lit s))
      ["time"; "code"; "account"; "vip"; "q1"; "q2"; "q3"; "q4"]%string.

Definition sample_df : DataFrame :=
  mkDataFrame sample_columns
    [ sample_row_long; sample_row_blank; sample_row_keyword;
      sample_row_keyword_long ].

Definition sample_world : world := mkWorld 0 [] [].

(** A sheet of five columns only. *)
Definition sample_df_narrow : DataFrame :=
  mkDataFrame (map (fun s => LStr (lit s))
                   ["time"; "code"; "account"; "q1"; "q2"]%string)
    [ [ CStr (lit "2024/5/1 9:12"); CStr (lit "FB-0001"); CInt 13800138000;
        CStr (lit "The upload step failed twice for me."); empty_cell ];
      [ CStr (lit "2024/5/1 9:20"); CStr (lit "FB-0002"); CInt 13900139000;
        empty_cell; empty_cell ] ].

(** The long row again, its submission time now a date cell. *)
Definition sample_row_dated : list cell :=
  [ CTimestamp (lit "2024-05-01 09:12:00"); CStr (lit "FB-0001");
    CInt 13800138000; empty_cell;
    CStr (lit "The upload step failed twice for me.");
    CStr (lit "Search is slow on my phone.");
    empty_cell; empty_cell ].

Definition sample_df_dated : DataFrame :=
  mkDataFrame sample_columns [ sample_row_blank; sample_row_dated ].

(** A sheet on which no row reaches 3. *)
Definition sample_df_quiet : DataFrame :=
  mkDataFrame sample_columns [ sample_row_blank; sample_row_keyword ].

(** The long row with other cells outside positions 4 to 7. *)
Definition sample_row_long_other : list cell :=
  [ empty_cell; CStr (lit "FB-0009"); CStr (lit "z@y.cn"); CInt 7;
    CStr (lit "The upload step failed twice for me.");
    CStr (lit "Search results load " ++ [34%N] ++ lit "slowly" ++ [34%N; 9%N]
            ++ lit "on mobile devices.");
    empty_cell; empty_cell; CStr (lit "one more column") ].

(** The same sheet with the year 2024 as the header of its fourth
    column: pandas keeps that label as the int 2024. *)
Definition sample_columns_year : list label :=
  [ LStr (lit "time"); LStr (lit "code"); LStr (lit "account"); LInt 2024;
    LStr (lit "q1"); LStr (lit "q2"); LStr (lit "q3"); LStr (lit "q4") ].

Definition sample_df_year : DataFrame :=
  mkDataFrame sample_columns_year [ sample_row_keyword_long; sample_row_blank ].

(** The sheet with a date as the header of its first column. *)
Definition sample_df_dated_label : DataFrame :=
  mkDataFrame (LTimestamp (lit "2024-05-01 00:00:00") :: tl sample_columns)
    [ sample_row_blank; sample_row_long ].

(** A sheet of integers only: every cell of a row is a [numpy.int64].
    Two answers of 11 digits: score 3. *)
Definition sample_row_int64 : list cell :=
  [ CInt64 20240501; CInt64 1001; CInt64 13800138000; CInt64 1;
    CInt64 12345678901; CInt64 12345678902; CInt64 0; CInt64 5 ].

Definition sample_df_int64 : DataFrame :=
  mkDataFrame sample_columns [ sample_row_int64 ].

(** The world of a second run on the same day: the file of the first
    run is there, beside a file of another name. *)
Definition sample_world_rerun : world :=
  mkWorld 0
    [ (lit "notes.txt", lit "keep");
      (lit "payment_list_20240501.json", lit "[]") ]
    [].

(* ================================================================== *)
(** ** Facts about strings *)

Lemma str_eqb_eq (s t : pystr) : str_eqb s t = true <-> s = t.
Proof.
  revert t; induction s as [|a s IH]; intros [|b t]; simpl; split;
    try congruence; try reflexivity.
  - intros H. apply andb_true_iff in H as [Hab Hst].
    apply N.eqb_eq in Hab. apply IH in Hst. congruence.
  - intros H. injection H as -> ->. rewrite N.eqb_refl. simpl. now apply IH.
Qed.

Lemma startswith_spec (p s : pystr) :
  startswith p s = true <-> exists rest, s = p ++ rest.
Proof.
  revert s; induction p as [|a p IH]; intros s; simpl.
  - split; [intros _; now exists s | reflexivity].
  - destruct s as [|b s].
    + split; [discriminate | intros [rest H]; discriminate].
    + rewrite andb_true_iff, N.eqb_eq, IH. split.
      * intros [-> [rest ->]]. now exists rest.
      * intros [rest H]. injection H as -> ->. split; [reflexivity | now exists rest].
Qed.

(** [w in s] holds exactly when [s] splits around a copy of [w]. *)
Lemma contains_spec (w s : pystr) :
  contains w s = true <-> exists pre post, s = pre ++ w ++ post.
Proof.
  induction s as [|b s IH].
  - simpl. rewrite orb_false_r, startswith_spec. split.
    + intros [rest H]. now exists [], rest.
    + intros [pre [post H]]. destruct pre; simpl in H.
      * now exists post.
      * discriminate.
  - cbn [contains]. rewrite orb_true_iff, startswith_spec, IH. split.
    + intros [[rest H] | [pre [post H]]].
      * now exists [], rest.
      * exists (b :: pre), post. now rewrite H.
    + intros [pre [post H]]. destruct pre as [|c pre]; simpl in H.
      * left. now exists post.
      * right. injection H as _ H. now exists pre, post.
Qed.

Lemma contains_app (w pre s post : pystr) :
  contains w s = true -> contains w (pre ++ s ++ post) = true.
Proof.
  rewrite !contains_spec. intros [a [b ->]].
  exists (pre ++ a), (b ++ post). now rewrite <- !app_assoc.
Qed.

(** A member of [parts] sits inside [sep.join(parts)]. *)
Lemma join_member (sep t : pystr) (parts : list pystr) :
  In t parts -> exists pre post, join sep parts = pre ++ t ++ post.
Proof.
  induction parts as [|p rest IH]; [intros [] |].
  intros [-> | Hin].
  - destruct rest as [|q rest].
    + exists [], []. simpl. now rewrite app_nil_r.
    + exists [], (sep ++ join sep (q :: rest)). reflexivity.
  - destruct rest as [|q rest]; [destruct Hin |].
    destruct (IH Hin) as [pre [post E]].
    exists (p ++ sep ++ pre), post.
    change (join sep (p :: q :: rest)) with (p ++ sep ++ join sep (q :: rest)).
    rewrite E. now rewrite <- !app_assoc.
Qed.

Lemma len_nonneg {A} (s : list A) : 0 <= len s.
Proof. unfold len. lia. Qed.

Lemma loop_counts (texts : list pystr) (score : Z) :
  fold_left loop_step texts score = score + len (filter earns_point texts).
Proof.
  revert score; induction texts as [|t texts IH]; intros score; simpl.
  - unfold len. simpl. lia.
  - rewrite IH. unfold loop_step, earns_point.
    rewrite Z.gtb_ltb.
    destruct ((10 <? len t) && negb (str_eqb t (lit "nan"))); unfold len; simpl; lia.
Qed.

(** The comprehension over [range(4, 8)] reads the four text forms, or
    raises when the row is too short. *)
Lemma read_text_fields (row : Series) :
  (8 <= List.length (values row))%nat ->
  comprehension (fun i => c <- iloc row i ;; Ok (str_of_cell c))%res (range 4 8)
  = Ok (text_forms row).
Proof.
  unfold text_forms, iloc. destruct row as [idx vals]. simpl.
  destruct vals as [|c0 [|c1 [|c2 [|c3 [|c4 [|c5 [|c6 [|c7 rest]]]]]]]];
    simpl; intros H; try lia. reflexivity.
Qed.

Lemma read_text_fields_short (row : Series) :
  (List.length (values row) < 8)%nat ->
  comprehension (fun i => c <- iloc row i ;; Ok (str_of_cell c))%res (range 4 8)
  = Raise IndexError.
Proof.
  unfold iloc. destruct row as [idx vals]. simpl.
  destruct vals as [|c0 [|c1 [|c2 [|c3 [|c4 [|c5 [|c6 [|c7 rest]]]]]]]];
    simpl; intros H; try lia; reflexivity.
Qed.

Lemma text_forms_length (row : Series) :
  (8 <= List.length (values row))%nat -> List.length (text_forms row) = 4%nat.
Proof.
  unfold text_forms. rewrite length_map, length_firstn, length_skipn. lia.
Qed.

(** On a row of at least 8 cells the scorer returns, and its value is the
    one its body computes from the four text forms. *)
Lemma assess_on_text_forms (row : Series) :
  (8 <= List.length (values row))%nat ->
  assess_feedback_quality row =
  Ok (Z.min (fold_left loop_step (text_forms row) 1 + keyword_bonus (text_forms row)) 5).
Proof.
  intros H. unfold assess_feedback_quality.
  rewrite (read_text_fields row H). unfold rbind, keyword_bonus.
  change (0 + 1) with 1.
  destruct (existsb _ keywords); f_equal; lia.
Qed.

Lemma assess_returns (row : Series) :
  (8 <= List.length (values row))%nat ->
  exists score, assess_feedback_quality row = Ok score.
Proof. intros H. eexists. apply (assess_on_text_forms row H). Qed.

Lemma assess_short_row (row : Series) :
  (List.length (values row) < 8)%nat ->
  assess_feedback_quality row = Raise IndexError.
Proof.
  intros H. unfold assess_feedback_quality.
  now rewrite (read_text_fields_short row H).
Qed.

Lemma keyword_bonus_range (texts : list pystr) :
  0 <= keyword_bonus texts <= 1.
Proof. unfold keyword_bonus. destruct (existsb _ _); lia. Qed.

(** C1: on every response row (8 cells or more) the scorer returns the
    reference score: 1, plus 1 for each text field at positions 4 to 7
    that is longer than 10 and is not ['nan'], plus 1 when the lowered
    space-joined text holds a keyword, capped at 5. *)
Theorem assess_equals_reference (row : Series) :
  (8 <= List.length (values row))%nat ->
  assess_feedback_quality row = Ok (reference_score (text_forms row)).
Proof.
  intros H. rewrite (assess_on_text_forms row H).
  unfold reference_score. rewrite loop_counts. reflexivity.
Qed.

(** C2: the scorer's value on a response row is between 0 and 5. *)
Theorem assess_in_0_5 (row : Series) :
  (8 <= List.length (values row))%nat ->
  exists score, assess_feedback_quality row = Ok score /\ 0 <= score <= 5.
Proof.
  intros H. eexists. split; [apply (assess_on_text_forms row H) |].
  rewrite loop_counts.
  pose proof (len_nonneg (filter earns_point (text_forms row))).
  pose proof (keyword_bonus_range (text_forms row)). lia.
Qed.

(** C9: the scorer's value on a response row is at least 1, so never 0. *)
Theorem assess_at_least_1 (row : Series) :
  (8 <= List.length (values row))%nat ->
  exists score, assess_feedback_quality row = Ok score /\ 1 <= score /\ score <> 0.
Proof.
  intros H. eexists. split; [apply (assess_on_text_forms row H) |].
  rewrite loop_counts.
  pose proof (len_nonneg (filter earns_point (text_forms row))).
  pose proof (keyword_bonus_range (text_forms row)). lia.
Qed.

(** *** The sentinel test *)

Lemma sentinel_is_short (text : pystr) :
  str_eqb text (lit "nan") = true -> len text = 3.
Proof. intros H. apply str_eqb_eq in H. now subst. Qed.

Lemma loop_step_length_only (score : Z) (text : pystr) :
  loop_step score text = if len text >? 10 then score + 1 else score.
Proof.
  unfold loop_step. destruct (len text >? 10) eqn:Hlen; [| reflexivity].
  destruct (str_eqb text (lit "nan")) eqn:Hnan; [| reflexivity].
  apply sentinel_is_short in Hnan. rewrite Hnan in Hlen. discriminate.
Qed.

Lemma loop_length_only (texts : list pystr) (score : Z) :
  fold_left loop_step texts score =
  fold_left (fun score text => if len text >? 10 then score + 1 else score)
            texts score.
Proof.
  revert score; induction texts as [|t texts IH]; intros score; simpl.
  - reflexivity.
  - now rewrite loop_step_length_only, IH.
Qed.

(** C10: dropping the ['nan'] test from the loop changes nothing: the
    two scorers agree on every row (they also raise together), because
    ['nan'] has length 3 and never passes the length test. *)
Theorem sentinel_check_redundant (row : Series) :
  assess_feedback_quality row = assess_feedback_quality_length_only row.
Proof.
  unfold assess_feedback_quality, assess_feedback_quality_length_only.
  destruct (comprehension _ (range 4 8)) as [texts | e]; simpl; [| reflexivity].
  now rewrite loop_length_only.
Qed.

(** *** Blank rows *)

(** C6: a response row whose four text forms are each ['nan'] or the
    empty string scores exactly 1. *)
Theorem blank_row_scores_1 (row : Series) :
  (8 <= List.length (values row))%nat ->
  Forall (fun text => text = lit "nan" \/ text = []) (text_forms row) ->
  assess_feedback_quality row = Ok 1.
Proof.
  intros H Hblank. rewrite (assess_on_text_forms row H).
  pose proof (text_forms_length row H) as Hlen.
  destruct (text_forms row) as [|t4 [|t5 [|t6 [|t7 [|t8 rest]]]]];
    try discriminate Hlen.
  inversion Hblank as [|? ? H4 Hb5]; subst.
  inversion Hb5 as [|? ? H5 Hb6]; subst.
  inversion Hb6 as [|? ? H6 Hb7]; subst.
  inversion Hb7 as [|? ? H7 _]; subst.
  destruct H4 as [-> | ->], H5 as [-> | ->], H6 as [-> | ->], H7 as [-> | ->];
    vm_compute; reflexivity.
Qed.

(** *** Keywords survive lowering *)

Lemma do_lower_skip (pre rest before : pystr) :
  exists out, do_lower before (pre ++ rest) = out ++ do_lower (before ++ pre) rest.
Proof.
  revert before; induction pre as [|c pre IH]; intros before; simpl.
  - exists []. now rewrite app_nil_r.
  - destruct (IH (before ++ [c])) as [out E].
    exists (lower_ucs4 before c (pre ++ rest) ++ out).
    rewrite E, <- !app_assoc. reflexivity.
Qed.

Lemma do_lower_fixed (word : pystr) :
  (forall c, In c word -> forall before after, lower_ucs4 before c after = [c]) ->
  forall before rest,
    do_lower before (word ++ rest) = word ++ do_lower (before ++ word) rest.
Proof.
  induction word as [|c word IH]; intros Hfix before rest; simpl.
  - now rewrite app_nil_r.
  - rewrite (Hfix c (or_introl eq_refl)). simpl. f_equal.
    rewrite IH, <- !app_assoc; [reflexivity |].
    intros d Hd. apply Hfix. now right.
Qed.

Lemma keyword_chars_fixed :
  (forall c, In c (List.concat keywords) -> ToLowerFull c = [c]) ->
  forall word, In word keywords ->
  forall c, In c word -> forall before after, lower_ucs4 before c after = [c].
Proof.
  intros Htable word Hword c Hc before after.
  assert (Hin : In c (List.concat keywords)).
  { apply in_concat. now exists word. }
  unfold lower_ucs4.
  assert (Hhigh : N.ltb c 128 = false /\ N.eqb c 0x3A3 = false).
  { clear -Hin. simpl in Hin.
    repeat (destruct Hin as [<- | Hin]; [split; reflexivity |]).
    destruct Hin. }
  destruct Hhigh as [-> ->]. now apply Htable.
Qed.

(** A keyword inside a text is still inside the lowered text. *)
Lemma lower_keeps_keyword (word s : pystr) :
  (forall c, In c (List.concat keywords) -> ToLowerFull c = [c]) ->
  In word keywords ->
  contains word s = true -> contains word (lower s) = true.
Proof.
  intros Htable Hword Hs. apply contains_spec in Hs as [pre [post ->]].
  unfold lower. destruct (do_lower_skip pre (word ++ post) []) as [out ->].
  rewrite (do_lower_fixed word (keyword_chars_fixed Htable word Hword)).
  apply contains_spec. eauto.
Qed.

Lemma no_long_field (texts : list pystr) :
  (forall text, In text texts -> len text <= 10) ->
  filter earns_point texts = [].
Proof.
  induction texts as [|t texts IH]; intros Hshort; simpl; [reflexivity |].
  unfold earns_point at 1.
  assert (Ht : len t <= 10) by (apply Hshort; now left).
  apply Z.ltb_ge in Ht. rewrite Ht. simpl.
  apply IH. intros u Hu. apply Hshort. now right.
Qed.

(** C7: a response row with a keyword in one of its text fields and no
    text form longer than 10 scores exactly 2.  The Unicode table is
    assumed to leave the keywords' characters alone (they are caseless). *)
Theorem keyword_only_row_scores_2 (row : Series) :
  (forall c, In c (List.concat keywords) -> ToLowerFull c = [c]) ->
  (8 <= List.length (values row))%nat ->
  (forall text, In text (text_forms row) -> len text <= 10) ->
  (exists text word,
      In text (text_forms row) /\ In word keywords /\ contains word text = true) ->
  assess_feedback_quality row = Ok 2.
Proof.
  intros Htable H Hshort [text [word [Htext [Hword Hin]]]].
  rewrite (assess_on_text_forms row H), loop_counts, (no_long_field _ Hshort).
  assert (Hbonus : keyword_bonus (text_forms row) = 1).
  { unfold keyword_bonus.
    replace (existsb _ keywords) with true; [reflexivity |].
    symmetry. apply existsb_exists. exists word. split; [assumption |].
    apply (lower_keeps_keyword word _ Htable Hword).
    destruct (join_member (lit " ") text _ Htext) as [pre [post ->]].
    now apply contains_app. }
  rewrite Hbonus. reflexivity.
Qed.

(* ================================================================== *)
(** ** The batch processor *)

(** What the loop appends: one record per qualifying row, in row order. *)
Lemma for_each_row_records (rows : list Series) :
  forall payment_list w out w',
    for_each_row rows payment_list w = Ok (out, w') ->
    exists new, out = payment_list ++ new /\
                Forall2 made_from new (filter qualifies rows).
Proof.
  induction rows as [|row rest IH]; intros payment_list w out w' Hrun.
  - simpl in Hrun. unfold ret in Hrun. injection Hrun as <- <-.
    exists []. split; [now rewrite app_nil_r | constructor].
  - cbn [for_each_row] in Hrun. unfold bind at 1, lift at 1 in Hrun.
    destruct (iloc row 1) as [code|] eqn:Hcode; [| discriminate].
    unfold bind at 1, lift at 1 in Hrun.
    destruct (iloc row 2) as [account|] eqn:Haccount; [| discriminate].
    unfold bind at 1, lift at 1 in Hrun.
    destruct (assess_feedback_quality row) as [score|] eqn:Hscore; [| discriminate].
    cbn [filter]. unfold qualifies at 1. rewrite Hscore.
    destruct (score >=? 3) eqn:Hhigh.
    + unfold bind at 1, new_uuid at 1 in Hrun.
      unfold bind at 1, timestamp at 1 in Hrun.
      apply IH in Hrun as [new [-> Hnew]].
      eexists (_ :: new). split; [now rewrite <- app_assoc |].
      constructor; [| exact Hnew].
      unfold made_from; cbn. repeat split; assumption.
    + apply IH in Hrun as [new [-> Hnew]]. now exists new.
Qed.

(** The loop finishes on rows of 8 cells or more. *)
Lemma for_each_row_returns (rows : list Series) :
  Forall (fun row => (8 <= List.length (values row))%nat) rows ->
  forall payment_list w, exists out w',
    for_each_row rows payment_list w = Ok (out, w').
Proof.
  induction 1 as [|row rest Hrow Hrest IH]; intros payment_list w.
  - simpl. unfold ret. eauto.
  - cbn [for_each_row].
    destruct (assess_returns row Hrow) as [score Hscore].
    unfold iloc.
    destruct row as [idx vals]. cbn [values] in *.
    destruct vals as [|c0 [|c1 [|c2 vals]]]; simpl in Hrow; try lia.
    unfold bind at 1, lift at 1. cbn [nth_error].
    unfold bind at 1, lift at 1.
    unfold bind at 1, lift at 1. rewrite Hscore.
    destruct (score >=? 3).
    + unfold bind at 1, new_uuid at 1. unfold bind at 1, timestamp at 1.
      apply IH.
    + apply IH.
Qed.

(* ================================================================== *)
(** ** Number tokens *)

Lemma uint_digits_all (u : Decimal.uint) :
  span_digits (uint_digits u) = (uint_digits u, []).
Proof. induction u; simpl; try reflexivity; now rewrite IHu. Qed.

Lemma digits_uint_digits (u : Decimal.uint) : digits_uint (uint_digits u) = u.
Proof. induction u; simpl; try reflexivity; now rewrite IHu. Qed.

(** A normalised decimal is 0 alone or starts with a digit 1-9. *)
Lemma unorm_head (u : Decimal.uint) :
  match Decimal.unorm u with
  | Decimal.Nil => False
  | Decimal.D0 u' => u' = Decimal.Nil
  | _ => True
  end.
Proof. induction u; simpl; auto. Qed.

Lemma to_uint_head (p : positive) :
  exists c ds, uint_digits (Pos.to_uint p) = c :: ds /\
               is_digit c = true /\ N.eqb c 48 = false.
Proof.
  pose proof (DecimalPos.Unsigned.to_of (Pos.to_uint p)) as Hnorm.
  rewrite DecimalPos.Unsigned.of_to in Hnorm. simpl in Hnorm.
  pose proof (unorm_head (Pos.to_uint p)) as Hhead.
  rewrite <- Hnorm in Hhead.
  pose proof (DecimalPos.Unsigned.to_uint_nonzero p) as Hnz.
  destruct (Pos.to_uint p) as [|u|u|u|u|u|u|u|u|u|u]; simpl;
    try contradiction; try (eexists _, _; repeat split; reflexivity).
  subst u. now elim Hnz.
Qed.

Lemma match_number_digits (p : positive) (sign : pystr) :
  sign = [] \/ sign = [45%N] ->
  match_number (sign ++ uint_digits (Pos.to_uint p)) =
  Some (sign ++ uint_digits (Pos.to_uint p), [], [], []).
Proof.
  intros Hsign. destruct (to_uint_head p) as [c [ds [E [Hd Hz]]]].
  pose proof (uint_digits_all (Pos.to_uint p)) as Hall.
  rewrite E in *. simpl in Hall. rewrite Hd in Hall.
  destruct (span_digits ds) as [ds' r] eqn:Hspan. injection Hall as -> ->.
  unfold match_number, match_integer.
  destruct Hsign as [-> | ->]; simpl.
  - destruct (N.eqb c 45) eqn:H45.
    + apply N.eqb_eq in H45. subst c. discriminate Hd.
    + rewrite Hz, Hd, Hspan. reflexivity.
  - rewrite Hz, Hd, Hspan. reflexivity.
Qed.

(** [str(z)] is one integer token. *)
Lemma match_number_int (z : Z) :
  match_number (str_of_int z) = Some (str_of_int z, [], [], []).
Proof.
  destruct z as [|p|p]; simpl str_of_int.
  - reflexivity.
  - apply (match_number_digits p []). now left.
  - apply (match_number_digits p [45%N]). now right.
Qed.

Lemma parse_int_str (z : Z) : parse_int (str_of_int z) = z.
Proof.
  destruct z as [|p|p]; simpl str_of_int.
  - reflexivity.
  - destruct (to_uint_head p) as [c [ds [E [Hd Hz]]]].
    unfold parse_int. rewrite E.
    destruct (N.eqb c 45) eqn:H45.
    + apply N.eqb_eq in H45. subst c. discriminate Hd.
    + rewrite <- E, digits_uint_digits. unfold N.of_uint.
      now rewrite DecimalPos.Unsigned.of_to.
  - unfold parse_int. rewrite N.eqb_refl, digits_uint_digits. unfold N.of_uint.
    now rewrite DecimalPos.Unsigned.of_to.
Qed.

(** *** A token followed by more text *)

Lemma span_digits_app (s rest ds r : pystr) :
  span_digits s = (ds, r) ->
  r <> [] \/ delimits rest = true ->
  span_digits (s ++ rest) = (ds, r ++ rest).
Proof.
  revert ds r; induction s as [|c s IH]; intros ds r Hspan Hstop; simpl in *.
  - injection Hspan as <- <-. destruct Hstop as [Hr | Hrest]; [now elim Hr |].
    destruct rest as [|c rest]; [reflexivity |]. simpl in *.
    destruct (is_digit c); [discriminate | reflexivity].
  - destruct (is_digit c).
    + destruct (span_digits s) as [ds' r'] eqn:Hs. injection Hspan as <- <-.
      now rewrite (IH ds' r' eq_refl Hstop).
    + injection Hspan as <- <-. reflexivity.
Qed.

Lemma span_digits_stop (s ds r : pystr) :
  span_digits s = (ds, r) -> s = ds ++ r.
Proof.
  revert ds r; induction s as [|c s IH]; intros ds r Hspan; simpl in *.
  - now injection Hspan as <- <-.
  - destruct (is_digit c).
    + destruct (span_digits s) as [ds' r'] eqn:Hs. injection Hspan as <- <-.
      simpl. f_equal. now apply IH.
    + now injection Hspan as <- <-.
Qed.

Lemma match_integer_app (s rest integer r : pystr) :
  match_integer s = Some (integer, r) ->
  r <> [] \/ delimits rest = true ->
  match_integer (s ++ rest) = Some (integer, r ++ rest).
Proof.
  unfold match_integer. intros Hm Hstop.
  destruct s as [|c s]; [discriminate |].
  assert (Hdigits : forall sign d s2,
    (if N.eqb d 48 then Some (sign ++ [48%N], s2)
     else if is_digit d
          then let (ds, rest0) := span_digits s2 in Some (sign ++ d :: ds, rest0)
          else None) = Some (integer, r) ->
    (if N.eqb d 48 then Some (sign ++ [48%N], s2 ++ rest)
     else if is_digit d
          then let (ds, rest0) := span_digits (s2 ++ rest) in Some (sign ++ d :: ds, rest0)
          else None) = Some (integer, r ++ rest)).
  { intros sign d s2 H. destruct (N.eqb d 48).
    - now injection H as <- <-.
    - destruct (is_digit d); [| discriminate].
      destruct (span_digits s2) as [ds r0] eqn:Hs. injection H as <- <-.
      now rewrite (span_digits_app s2 rest ds r0 Hs Hstop). }
  simpl. destruct (N.eqb c 45).
  - destruct s as [|d s2]; [discriminate |]. exact (Hdigits [45%N] d s2 Hm).
  - exact (Hdigits [] c s Hm).
Qed.

Lemma delimits_head (c : N) (rest : pystr) :
  delimits (c :: rest) = true ->
  is_digit c = false /\ N.eqb c 46 = false /\ N.eqb c 101 = false /\
  N.eqb c 69 = false /\ N.eqb c 43 = false /\ N.eqb c 45 = false.
Proof.
  simpl. rewrite negb_true_iff, !orb_false_iff.
  intros [[[[[H1 H2] H3] H4] H5] H6]. repeat split; assumption.
Qed.

Lemma match_frac_app (s rest frac r : pystr) :
  match_frac s = (frac, r) ->
  delimits rest = true ->
  match_frac (s ++ rest) = (frac, r ++ rest).
Proof.
  unfold match_frac. intros Hm Hstop. destruct s as [|c s]; simpl.
  - injection Hm as <- <-. destruct rest as [|d rest]; [reflexivity |].
    apply delimits_head in Hstop as (_ & -> & _). reflexivity.
  - destruct (N.eqb c 46).
    + destruct (span_digits s) as [ds r0] eqn:Hs.
      rewrite (span_digits_app s rest ds r0 Hs (or_intror Hstop)).
      destruct ds; now injection Hm as <- <-.
    + now injection Hm as <- <-.
Qed.

Lemma match_exp_app (s rest exp r : pystr) :
  match_exp s = (exp, r) ->
  delimits rest = true ->
  match_exp (s ++ rest) = (exp, r ++ rest).
Proof.
  unfold match_exp. intros Hm Hstop. destruct s as [|c s]; simpl.
  - injection Hm as <- <-. destruct rest as [|d rest]; [reflexivity |].
    apply delimits_head in Hstop as (_ & _ & -> & -> & _). reflexivity.
  - destruct (N.eqb c 101 || N.eqb c 69); [| now injection Hm as <- <-].
    destruct s as [|g s]; simpl.
    + simpl in Hm. injection Hm as <- <-.
      destruct rest as [|d rest]; [reflexivity |].
      apply delimits_head in Hstop as (Hd & _ & _ & _ & -> & ->). simpl.
      now rewrite Hd.
    + destruct (N.eqb g 45 || N.eqb g 43).
      * destruct (span_digits s) as [ds r0] eqn:Hs.
        rewrite (span_digits_app s rest ds r0 Hs (or_intror Hstop)).
        destruct ds; now injection Hm as <- <-.
      * destruct (span_digits (g :: s)) as [ds r0] eqn:Hs.
        change (g :: s ++ rest) with ((g :: s) ++ rest).
        rewrite (span_digits_app (g :: s) rest ds r0 Hs (or_intror Hstop)).
        destruct ds; now injection Hm as <- <-.
Qed.

(** A number token is matched the same way when text that cannot
    continue a number follows it. *)
Lemma match_number_app (s rest integer frac exp r : pystr) :
  match_number s = Some (integer, frac, exp, r) ->
  delimits rest = true ->
  match_number (s ++ rest) = Some (integer, frac, exp, r ++ rest).
Proof.
  unfold match_number. intros Hm Hstop.
  destruct (match_integer s) as [[i s1]|] eqn:Hi; [| discriminate].
  destruct (match_frac s1) as [f s2] eqn:Hf.
  destruct (match_exp s2) as [e s3] eqn:He.
  injection Hm as <- <- <- <-.
  rewrite (match_integer_app s rest i s1 Hi (or_intror Hstop)).
  rewrite (match_frac_app s1 rest f s2 Hf Hstop).
  now rewrite (match_exp_app s2 rest e s3 He Hstop).
Qed.

Lemma match_integer_parts (s integer r : pystr) :
  match_integer s = Some (integer, r) -> s = integer ++ r.
Proof.
  unfold match_integer. intros Hm.
  assert (Hdigits : forall sign d s2,
    (if N.eqb d 48 then Some (sign ++ [48%N], s2)
     else if is_digit d
          then let (ds, rest0) := span_digits s2 in Some (sign ++ d :: ds, rest0)
          else None) = Some (integer, r) ->
    sign ++ d :: s2 = integer ++ r).
  { intros sign d s2 H. destruct (N.eqb d 48) eqn:H48.
    - apply N.eqb_eq in H48. subst d. injection H as <- <-.
      now rewrite <- app_assoc.
    - destruct (is_digit d); [| discriminate].
      destruct (span_digits s2) as [ds r0] eqn:Hs. injection H as <- <-.
      rewrite (span_digits_stop s2 ds r0 Hs), <- app_assoc. reflexivity. }
  destruct s as [|c s]; [discriminate |].
  destruct (N.eqb c 45) eqn:H45.
  - apply N.eqb_eq in H45. subst c.
    destruct s as [|d s2]; [discriminate |]. exact (Hdigits [45%N] d s2 Hm).
  - exact (Hdigits [] c s Hm).
Qed.

Lemma match_frac_parts (s frac r : pystr) :
  match_frac s = (frac, r) -> s = frac ++ r.
Proof.
  unfold match_frac. intros Hm. destruct s as [|c s].
  - now injection Hm as <- <-.
  - destruct (N.eqb c 46); [| now injection Hm as <- <-].
    destruct (span_digits s) as [ds r0] eqn:Hs.
    apply span_digits_stop in Hs.
    destruct ds; injection Hm as <- <-; [reflexivity |].
    rewrite Hs. reflexivity.
Qed.

Lemma match_exp_parts (s exp r : pystr) :
  match_exp s = (exp, r) -> s = exp ++ r.
Proof.
  unfold match_exp. intros Hm. destruct s as [|c s].
  - now injection Hm as <- <-.
  - destruct (N.eqb c 101 || N.eqb c 69); [| now injection Hm as <- <-].
    destruct s as [|g s].
    + simpl in Hm. now injection Hm as <- <-.
    + destruct (N.eqb g 45 || N.eqb g 43).
      * destruct (span_digits s) as [ds r0] eqn:Hs.
        apply span_digits_stop in Hs.
        destruct ds; injection Hm as <- <-; [reflexivity |].
        rewrite Hs. reflexivity.
      * destruct (span_digits (g :: s)) as [ds r0] eqn:Hs.
        apply span_digits_stop in Hs.
        destruct ds; injection Hm as <- <-; [reflexivity |].
        rewrite Hs. reflexivity.
Qed.

Lemma match_number_parts (s integer frac exp r : pystr) :
  match_number s = Some (integer, frac, exp, r) ->
  s = integer ++ frac ++ exp ++ r.
Proof.
  unfold match_number. intros Hm.
  destruct (match_integer s) as [[i s1]|] eqn:Hi; [| discriminate].
  destruct (match_frac s1) as [f s2] eqn:Hf.
  destruct (match_exp s2) as [e s3] eqn:He.
  injection Hm as <- <- <- <-.
  apply match_integer_parts in Hi. apply match_frac_parts in Hf.
  apply match_exp_parts in He. congruence.
Qed.

(** A number starts with a minus sign or a digit. *)
Lemma match_number_head (s : pystr) (m : pystr * pystr * pystr * pystr) :
  match_number s = Some m ->
  exists c s', s = c :: s' /\ (c = 45%N \/ is_digit c = true).
Proof.
  unfold match_number, match_integer. intros Hm.
  destruct s as [|c s]; [discriminate |]. exists c, s. split; [reflexivity |].
  destruct (N.eqb c 45) eqn:H45; [left; now apply N.eqb_eq |]. right.
  destruct (N.eqb c 48) eqn:H48; [apply N.eqb_eq in H48; now subst |].
  destruct (is_digit c); [reflexivity | discriminate].
Qed.

(* ================================================================== *)
(** ** String literals *)

Lemma below_32 (c : N) :
  N.ltb c 32 = true -> In c (map N.of_nat (seq 0 32)).
Proof.
  intros H. apply N.ltb_lt in H.
  rewrite <- (N2Nat.id c). apply in_map. apply in_seq. lia.
Qed.

(** The decoder reads one escaped character back. *)
Lemma scanstring_escape_char (c : N) (tail : pystr) :
  scanstring (escape_char c ++ tail) = prepend c (scanstring tail).
Proof.
  destruct (N.ltb c 32) eqn:Hsmall.
  - apply below_32 in Hsmall. simpl in Hsmall.
    repeat (destruct Hsmall as [<- | Hsmall]; [reflexivity |]).
    destruct Hsmall.
  - apply N.ltb_ge in Hsmall. unfold escape_char.
    destruct (N.eqb_spec c 92) as [-> | H92]; [reflexivity |].
    destruct (N.eqb_spec c 34) as [-> | H34]; [reflexivity |].
    destruct (N.eqb_spec c 8); [lia |].
    destruct (N.eqb_spec c 12); [lia |].
    destruct (N.eqb_spec c 10); [lia |].
    destruct (N.eqb_spec c 13); [lia |].
    destruct (N.eqb_spec c 9); [lia |].
    destruct (N.ltb_spec c 32); [lia |].
    cbn [app scanstring].
    apply N.eqb_neq in H92, H34. rewrite H92, H34.
    destruct (N.ltb_spec c 32); [lia | reflexivity].
Qed.

Lemma scanstring_escaped (s rest : pystr) :
  scanstring (flat_map escape_char s ++ 34%N :: rest) = Ok (s, rest).
Proof.
  induction s as [|c s IH]; [reflexivity |].
  cbn [flat_map]. rewrite <- app_assoc, scanstring_escape_char, IH. reflexivity.
Qed.

(** [encode_basestring] followed by [rest] is read back as the string. *)
Lemma scanstring_basestring (s rest : pystr) :
  exists body, encode_basestring s ++ rest = 34%N :: body /\
               scanstring body = Ok (s, rest).
Proof.
  exists (flat_map escape_char s ++ 34%N :: rest). split.
  - unfold encode_basestring. simpl. now rewrite <- app_assoc.
  - apply scanstring_escaped.
Qed.

(* ================================================================== *)
(** ** Whitespace *)

Lemma skip_ws_spaces (n : nat) (s : pystr) :
  skip_ws (repeat 32%N n ++ s) = skip_ws s.
Proof. induction n as [|n IH]; simpl; [reflexivity | exact IH]. Qed.

Lemma skip_ws_newline_indent (level : nat) (s : pystr) :
  skip_ws (newline_indent level ++ s) = skip_ws s.
Proof. unfold newline_indent. simpl. apply skip_ws_spaces. Qed.

Lemma skip_ws_head (c : N) (s : pystr) :
  is_ws c = false -> skip_ws (c :: s) = c :: s.
Proof. intros H. simpl. now rewrite H. Qed.

(* ================================================================== *)
(** ** Induction over nested values *)

Lemma pyval_nested_ind (P : pyval -> Prop) :
  P PNone ->
  (forall b, P (PBool b)) ->
  (forall z, P (PInt z)) ->
  (forall f, P (PFloat f)) ->
  (forall s, P (PStr s)) ->
  (forall x, P (PForeign x)) ->
  (forall items, Forall P items -> P (PList items)) ->
  (forall items, Forall (fun kv => P (snd kv)) items -> P (PDict items)) ->
  forall o, P o.
Proof.
  intros HNone HBool HInt HFloat HStr HTime HList HDict.
  fix IH 1. intros [ | b | z | f | s | text | items | items].
  - exact HNone.
  - apply HBool.
  - apply HInt.
  - apply HFloat.
  - apply HStr.
  - apply HTime.
  - apply HList. induction items as [|v items IHitems]; constructor.
    + apply IH.
    + exact IHitems.
  - apply HDict. induction items as [|[k v] items IHitems]; constructor.
    + apply IH.
    + exact IHitems.
Qed.

(* ================================================================== *)
(** ** Scalars read back *)

Lemma digit_bounds (c : N) :
  is_digit c = true -> (48 <= c <= 57)%N.
Proof.
  unfold is_digit. rewrite andb_true_iff, !N.leb_le.
  intros [H1 H2]. split; assumption.
Qed.

Lemma number_start (c : N) :
  c = 45%N \/ is_digit c = true ->
  N.eqb c 34 = false /\ N.eqb c 123 = false /\ N.eqb c 91 = false /\
  N.eqb 110 c = false /\ N.eqb 116 c = false /\ N.eqb 102 c = false /\
  is_ws c = false /\ N.eqb c 93 = false /\ N.eqb c 0xFEFF = false.
Proof.
  intros [-> | Hd]; [repeat split; reflexivity |].
  apply digit_bounds in Hd. unfold is_ws.
  repeat split; repeat rewrite orb_false_iff; repeat split;
    apply N.eqb_neq; lia.
Qed.

Lemma startswith_head_false (p s p' : pystr) (a c : N) :
  p = a :: p' -> N.eqb a c = false -> startswith p (c :: s) = false.
Proof. intros -> H. simpl. now rewrite H. Qed.

(** On a number the decoder goes to [match_number]. *)
Lemma scan_once_number (fuel : nat) (s integer frac exp r : pystr) :
  match_number s = Some (integer, frac, exp, r) ->
  scan_once (S fuel) s = Ok (number_value integer frac exp, r).
Proof.
  intros Hm. destruct (match_number_head s _ Hm) as [c [s' [-> Hc]]].
  apply number_start in Hc as (H1 & H2 & H3 & H4 & H5 & H6 & _).
  cbn [scan_once]. rewrite H1, H2, H3.
  rewrite (startswith_head_false (lit "null") s' (lit "ull") 110 c eq_refl H4).
  rewrite (startswith_head_false (lit "true") s' (lit "rue") 116 c eq_refl H5).
  rewrite (startswith_head_false (lit "false") s' (lit "alse") 102 c eq_refl H6).
  rewrite Hm. unfold number_value.
  destruct (nonempty frac || nonempty exp); reflexivity.
Qed.

Lemma scan_once_int (fuel : nat) (z : Z) (rest : pystr) :
  delimits rest = true ->
  scan_once (S fuel) (str_of_int z ++ rest) = Ok (PInt z, rest).
Proof.
  intros Hstop.
  rewrite (scan_once_number fuel _ _ _ _ _
             (match_number_app _ rest _ _ _ _ (match_number_int z) Hstop)).
  unfold number_value. simpl. now rewrite parse_int_str.
Qed.

Lemma float_token_number (token : pystr) :
  float_token token = true ->
  exists integer frac exp,
    match_number token = Some (integer, frac, exp, []) /\
    nonempty frac || nonempty exp = true /\
    integer ++ frac ++ exp = token.
Proof.
  unfold float_token. intros H.
  destruct (match_number token) as [[[[i f] e] r]|] eqn:Hm; [| discriminate].
  destruct r; [| discriminate]. exists i, f, e. repeat split; try assumption.
  apply match_number_parts in Hm. rewrite Hm, app_nil_r. reflexivity.
Qed.

Lemma scan_once_float (fuel : nat) (x : float) (rest : pystr) :
  float_faithful x ->
  delimits rest = true ->
  scan_once (S fuel) (repr_finite x ++ rest) = Ok (PFloat (FFin x), rest).
Proof.
  intros [Htoken Hback] Hstop.
  destruct (float_token_number _ Htoken) as [i [f [e [Hm [Hfloat Hparts]]]]].
  rewrite (scan_once_number fuel _ _ _ _ _
             (match_number_app _ rest _ _ _ _ Hm Hstop)).
  unfold number_value. rewrite Hfloat, Hparts, Hback. reflexivity.
Qed.

Lemma scan_once_str (fuel : nat) (s rest : pystr) :
  scan_once (S fuel) (encode_basestring s ++ rest) = Ok (PStr s, rest).
Proof.
  destruct (scanstring_basestring s rest) as [body [-> Hbody]].
  cbn [scan_once]. rewrite N.eqb_refl, Hbody. reflexivity.
Qed.

(** An encoded value begins with a character that starts a value. *)
Lemma iterencode_starts (level : nat) (o : pyval) (text : pystr) :
  loadable o ->
  iterencode level o = Ok text ->
  starts_value text = true.
Proof.
  intros Hload Henc.
  destruct o as [ | [|] | z | f | s | t | items | items]; simpl in Henc;
    try (injection Henc as <-; reflexivity); try discriminate.
  - injection Henc as <-.
    assert (Hhead : exists c s', str_of_int z = c :: s' /\
                                 (c = 45%N \/ is_digit c = true)).
    { exact (match_number_head _ _ (match_number_int z)). }
    destruct Hhead as [c [s' [-> Hc]]].
    apply number_start in Hc as (_ & _ & _ & _ & _ & _ & Hws & H93 & Hbom).
    simpl. now rewrite Hws, H93, Hbom.
  - injection Henc as <-. destruct f as [ | [|] | x]; try reflexivity.
    inversion Hload as [ | | | | | ? [Htoken _] | | | | ]; subst.
    destruct (float_token_number _ Htoken) as [i [f [e [Hm _]]]].
    destruct (match_number_head _ _ Hm) as [c [s' [E Hc]]].
    simpl. rewrite E.
    apply number_start in Hc as (_ & _ & _ & _ & _ & _ & Hws & H93 & Hbom).
    simpl. now rewrite Hws, H93, Hbom.
  - destruct items as [|v items]; [injection Henc as <-; reflexivity |].
    destruct (encode_elements _ _ _ _ _) as [body|]; [| discriminate].
    simpl in Henc. injection Henc as <-. reflexivity.
  - destruct items as [|[k v] items]; [injection Henc as <-; reflexivity |].
    destruct (encode_members _ _ _ _ _) as [body|]; [| discriminate].
    simpl in Henc. injection Henc as <-. reflexivity.
Qed.

Lemma starts_value_head (text : pystr) :
  starts_value text = true ->
  exists c t, text = c :: t /\ is_ws c = false /\ N.eqb c 93 = false /\
              N.eqb c 0xFEFF = false.
Proof.
  destruct text as [|c t]; [discriminate |]. simpl.
  rewrite !andb_true_iff, !negb_true_iff. intros [[H1 H2] H3].
  now exists c, t.
Qed.

(* ================================================================== *)
(** ** Arrays and objects read back *)

Lemma delimits_newline_indent (level : nat) (s : pystr) :
  delimits (newline_indent level ++ s) = true.
Proof. reflexivity. Qed.

Lemma newline_indent_length (level : nat) :
  (1 <= List.length (newline_indent level))%nat.
Proof. unfold newline_indent. simpl. lia. Qed.

Opaque newline_indent.

Lemma skip_to_value (level : nat) (o : pyval) (text rest : pystr) :
  loadable o ->
  iterencode level o = Ok text ->
  exists c t, text ++ rest = c :: t /\ skip_ws (text ++ rest) = c :: t /\
              N.eqb c 93 = false.
Proof.
  intros Hload Henc.
  destruct (starts_value_head _ (iterencode_starts level o text Hload Henc))
    as [c [t [-> [Hws [H93 _]]]]].
  exists c, (t ++ rest). repeat split; [| assumption].
  simpl. now rewrite Hws.
Qed.

(** The loop of [JSONArray] reads the elements of a non-empty list. *)
Lemma array_items_read (level : nat) (items : list pyval) :
  Forall loadable items ->
  Forall reads_back items ->
  forall v text more,
    loadable v -> reads_back v ->
    iterencode (S level) v = Ok text ->
    encode_elements (iterencode (S level)) (newline_indent (S level))
      (44%N :: newline_indent (S level)) false items = Ok more ->
    forall fuel rest,
      (elements_size (v :: items) <= fuel)%nat ->
      array_items fuel (text ++ more ++ newline_indent level ++ 93%N :: rest)
      = Ok (v :: items, rest).
Proof.
  intros Hloads Hreads. induction Hreads as [|v2 items Hv2 Hreads IH];
    intros v text more Hload Hv Henc Hmore fuel rest Hfuel.
  - simpl in Hmore. injection Hmore as <-.
    destruct fuel as [|fuel]; [simpl in Hfuel; lia |].
    cbn [array_items app]. simpl in Hfuel.
    rewrite (Hv (S level) text Henc fuel (newline_indent level ++ 93%N :: rest)
               ltac:(lia) (delimits_newline_indent _ _)).
    rewrite skip_ws_newline_indent. reflexivity.
  - inversion Hloads as [|? ? Hload2 Hloads']; subst.
    cbn [encode_elements] in Hmore. unfold rbind in Hmore.
    destruct (iterencode (S level) v2) as [text2|] eqn:Henc2; [| discriminate].
    destruct (encode_elements _ _ _ false items) as [more2|] eqn:Hmore2;
      [| discriminate].
    injection Hmore as <-.
    destruct fuel as [|fuel]; [simpl in Hfuel; lia |].
    cbn [array_items].
    change (elements_size (v :: v2 :: items))
      with (S (size v + elements_size (v2 :: items))) in Hfuel.
    cbn [app]. rewrite <- !app_assoc.
    rewrite (Hv (S level) text Henc fuel
               (44%N :: newline_indent (S level) ++ text2 ++ more2
                  ++ newline_indent level ++ 93%N :: rest)
               ltac:(lia) eq_refl).
    cbn [skip_ws is_ws N.eqb orb Pos.eqb].
    rewrite skip_ws_newline_indent.
    destruct (skip_to_value (S level) v2 text2
                (more2 ++ newline_indent level ++ 93%N :: rest) Hload2 Henc2)
      as [c [t [E [-> _]]]].
    rewrite <- E.
    rewrite (IH Hloads' v2 text2 more2 Hload2 Hv2 Henc2 eq_refl fuel rest
               ltac:(lia)).
    reflexivity.
Qed.

(** The loop of [JSONObject] reads the items of a non-empty dict, from
    just after the opening quote of the first key. *)
Lemma object_items_read (level : nat) (items : list (label * pyval)) :
  forallb is_str (map fst items) = true ->
  Forall (fun kv => loadable (snd kv)) items ->
  Forall (fun kv => reads_back (snd kv)) items ->
  forall (k : pystr) v text more,
    loadable v -> reads_back v ->
    iterencode (S level) v = Ok text ->
    encode_members (iterencode (S level)) (newline_indent (S level))
      (44%N :: newline_indent (S level)) false items = Ok more ->
    forall fuel rest,
      (members_size ((LStr k, v) :: items) <= fuel)%nat ->
      object_items fuel
        (flat_map escape_char k ++ 34%N :: 58%N :: 32%N ::
           text ++ more ++ newline_indent level ++ 125%N :: rest)
      = Ok ((LStr k, v) :: items, rest).
Proof.
  intros Hstr Hloads Hreads. induction Hreads as [|[k2 v2] items Hv2 Hreads IH];
    intros k v text more Hload Hv Henc Hmore fuel rest Hfuel.
  - simpl in Hmore. injection Hmore as <-.
    destruct fuel as [|fuel]; [simpl in Hfuel; lia |].
    cbn [object_items app]. simpl in Hfuel.
    rewrite scanstring_escaped.
    cbn [skip_ws is_ws N.eqb orb Pos.eqb].
    destruct (skip_to_value (S level) v text
                (newline_indent level ++ 125%N :: rest) Hload Henc)
      as [c [t [E [-> _]]]].
    rewrite <- E.
    rewrite (Hv (S level) text Henc fuel (newline_indent level ++ 125%N :: rest)
               ltac:(lia) (delimits_newline_indent _ _)).
    rewrite skip_ws_newline_indent. reflexivity.
  - inversion Hloads as [|? ? Hload2 Hloads']; subst. cbn [snd] in *.
    destruct k2 as [k2 | | | | ]; try discriminate Hstr.
    cbn [map fst forallb is_str andb] in Hstr.
    cbn [encode_members key_text] in Hmore. unfold rbind in Hmore.
    destruct (iterencode (S level) v2) as [text2|] eqn:Henc2; [| discriminate].
    destruct (encode_members _ _ _ false items) as [more2|] eqn:Hmore2;
      [| discriminate].
    injection Hmore as <-.
    destruct fuel as [|fuel]; [simpl in Hfuel; lia |].
    cbn [object_items].
    change (members_size ((LStr k, v) :: (LStr k2, v2) :: items))
      with (S (size v + members_size ((LStr k2, v2) :: items))) in Hfuel.
    rewrite scanstring_escaped.
    cbn [skip_ws is_ws N.eqb orb Pos.eqb].
    unfold encode_basestring.
    repeat (cbn [app]; rewrite <- ?app_assoc).
    destruct (skip_to_value (S level) v text
                (44%N :: newline_indent (S level) ++ 34%N ::
                   flat_map escape_char k2 ++ 34%N :: 58%N :: 32%N ::
                   text2 ++ more2 ++ newline_indent level ++ 125%N :: rest)
                Hload Henc)
      as [c [t [E [-> _]]]].
    rewrite <- E.
    rewrite (Hv (S level) text Henc fuel
               (44%N :: newline_indent (S level) ++ 34%N ::
                  flat_map escape_char k2 ++ 34%N :: 58%N :: 32%N ::
                  text2 ++ more2 ++ newline_indent level ++ 125%N :: rest)
               ltac:(lia) eq_refl).
    cbn [skip_ws is_ws N.eqb orb Pos.eqb].
    rewrite skip_ws_newline_indent.
    cbn [skip_ws is_ws N.eqb orb Pos.eqb].
    rewrite (IH Hstr Hloads' k2 v2 text2 more2 Hload2 Hv2 Henc2 eq_refl fuel rest
               ltac:(lia)).
    reflexivity.
Qed.

(** *** Dicts with distinct keys *)

Lemma dict_set_fresh {V} (d : list (label * V)) (k : label) (v : V) :
  fresh_after (map fst d) k = true -> dict_set d k v = d ++ [(k, v)].
Proof.
  induction d as [|[k' v'] d IH]; intros Hfresh; simpl; [reflexivity |].
  simpl in Hfresh. apply andb_true_iff in Hfresh as [Hk' Hfresh].
  apply negb_true_iff in Hk'. cbn [fst] in Hk'. rewrite Hk'.
  now rewrite IH.
Qed.

(** In a list of distinct keys each key is fresh after those before it. *)
Lemma keys_distinct_app (keys rest : list label) (k : label) :
  keys_distinct (keys ++ k :: rest) = true ->
  fresh_after keys k = true /\ keys_distinct ((keys ++ [k]) ++ rest) = true.
Proof.
  rewrite <- app_assoc. cbn [app]. intros H; split; [| exact H].
  induction keys as [|a keys IH]; [reflexivity |].
  cbn [app keys_distinct] in H. apply andb_true_iff in H as [Ha H].
  cbn [fresh_after forallb]. rewrite forallb_app in Ha.
  apply andb_true_iff in Ha as [_ Ha]. cbn [forallb] in Ha.
  apply andb_true_iff in Ha as [Ha _]. rewrite Ha. exact (IH H).
Qed.

Lemma dict_fold_distinct {V} (pairs acc : list (label * V)) :
  keys_distinct (map fst (acc ++ pairs)) = true ->
  fold_left (fun d kv => dict_set d (fst kv) (snd kv)) pairs acc = acc ++ pairs.
Proof.
  revert acc; induction pairs as [|[k v] pairs IH]; intros acc Hnd; simpl.
  - now rewrite app_nil_r.
  - rewrite map_app in Hnd. cbn [map fst] in Hnd.
    apply keys_distinct_app in Hnd as [Hfresh Hnd].
    rewrite (dict_set_fresh _ _ _ Hfresh).
    rewrite IH; rewrite <- app_assoc; [reflexivity |].
    rewrite <- app_assoc in Hnd. now rewrite map_app.
Qed.

(** [dict(pairs)] keeps pairs with distinct keys as they are. *)
Lemma dict_of_pairs_distinct {V} (pairs : list (label * V)) :
  keys_distinct (map fst pairs) = true -> dict_of_pairs pairs = pairs.
Proof. intros Hnd. unfold dict_of_pairs. now rewrite dict_fold_distinct. Qed.

(* ================================================================== *)
(** ** The fuel of [json_load] is enough *)

Lemma scalar_fits (o : pyval) :
  size o = 1%nat -> fits o.
Proof.
  intros Hsize Hload level text Henc. rewrite Hsize.
  destruct (starts_value_head _ (iterencode_starts level o text Hload Henc))
    as [c [t [-> _]]]. simpl. lia.
Qed.

Lemma elements_fit (level : nat) (newline separator : pystr)
  (items : list pyval) :
  (1 <= List.length newline)%nat -> (1 <= List.length separator)%nat ->
  Forall fits items -> Forall loadable items ->
  forall first body,
    encode_elements (iterencode level) newline separator first items = Ok body ->
    (elements_size items <= List.length body)%nat.
Proof.
  intros Hnl Hsep Hfits. induction Hfits as [|v items Hv Hfits IH];
    intros Hloads first body Henc.
  - simpl. lia.
  - inversion Hloads as [|? ? Hload Hloads']; subst.
    cbn [encode_elements] in Henc. unfold rbind in Henc.
    destruct (iterencode level v) as [text|] eqn:Hv'; [| discriminate].
    destruct (encode_elements _ _ _ false items) as [more|] eqn:Hmore;
      [| discriminate].
    injection Henc as <-.
    specialize (IH Hloads' false more Hmore).
    specialize (Hv Hload level text Hv').
    rewrite !length_app. simpl. destruct first; lia.
Qed.

Lemma members_fit (level : nat) (newline separator : pystr)
  (items : list (label * pyval)) :
  (1 <= List.length newline)%nat -> (1 <= List.length separator)%nat ->
  Forall (fun kv => fits (snd kv)) items ->
  Forall (fun kv => loadable (snd kv)) items ->
  forall first body,
    encode_members (iterencode level) newline separator first items = Ok body ->
    (members_size items <= List.length body)%nat.
Proof.
  intros Hnl Hsep Hfits. induction Hfits as [|[k v] items Hv Hfits IH];
    intros Hloads first body Henc.
  - simpl. lia.
  - inversion Hloads as [|? ? Hload Hloads']; subst. cbn [snd] in *.
    cbn [encode_members] in Henc. unfold rbind in Henc.
    destruct (key_text k) as [key|]; [| discriminate].
    destruct (iterencode level v) as [text|] eqn:Hv'; [| discriminate].
    destruct (encode_members _ _ _ false items) as [more|] eqn:Hmore;
      [| discriminate].
    injection Henc as <-.
    specialize (IH Hloads' false more Hmore).
    specialize (Hv Hload level text Hv').
    change (members_size ((k, v) :: items))
      with (S (size v + members_size items)).
    repeat (rewrite length_app || cbn [List.length app]).
    destruct first; lia.
Qed.

(** An encoded value is at least as long as the decoder's depth on it. *)
Lemma iterencode_fits (o : pyval) : fits o.
Proof.
  induction o as [ | b | z | f | s | t | items IH | items IH]
    using pyval_nested_ind; try (apply scalar_fits; reflexivity).
  - intros Hload level text Henc.
    inversion Hload as [ | | | | | | | ? Hloads | | ]; subst.
    destruct items as [|v items]; [injection Henc as <-; simpl; lia |].
    cbn [iterencode] in Henc. unfold rbind in Henc.
    destruct (encode_elements _ _ _ true (v :: items)) as [body|] eqn:Hbody;
      [| discriminate].
    injection Henc as <-.
    assert (Hsep : (1 <= List.length (44%N :: newline_indent (S level)))%nat)
      by (simpl; lia).
    pose proof (elements_fit (S level) _ _ (v :: items)
                  (newline_indent_length (S level))
                  Hsep IH Hloads true body Hbody) as Hfit.
    change (size (PList (v :: items))) with (S (elements_size (v :: items))).
    repeat (rewrite length_app || cbn [List.length app]). lia.
  - intros Hload level text Henc.
    inversion Hload as [ | | | | | | | | ? _ _ Hloads | ]; subst.
    destruct items as [|[k v] items]; [injection Henc as <-; simpl; lia |].
    cbn [iterencode] in Henc. unfold rbind in Henc.
    destruct (encode_members _ _ _ true ((k, v) :: items)) as [body|] eqn:Hbody;
      [| discriminate].
    injection Henc as <-.
    assert (Hsep : (1 <= List.length (44%N :: newline_indent (S level)))%nat)
      by (simpl; lia).
    pose proof (members_fit (S level) _ _ ((k, v) :: items)
                  (newline_indent_length (S level))
                  Hsep IH Hloads true body Hbody) as Hfit.
    change (size (PDict ((k, v) :: items)))
      with (S (members_size ((k, v) :: items))).
    repeat (rewrite length_app || cbn [List.length app]). lia.
Qed.

(* ================================================================== *)
(** ** Every loadable value reads back *)

Lemma loadable_reads_back (o : pyval) : loadable o -> reads_back o.
Proof.
  induction o as [ | b | z | f | s | t | items IH | items IH]
    using pyval_nested_ind; intros Hload level text Henc fuel rest Hfuel Hstop;
    (destruct fuel as [|fuel]; [simpl in Hfuel; lia |]).
  - injection Henc as <-. reflexivity.
  - destruct b; injection Henc as <-; reflexivity.
  - injection Henc as <-. now apply scan_once_int.
  - injection Henc as <-. destruct f as [ | [|] | x]; try reflexivity.
    inversion Hload; subst. now apply scan_once_float.
  - injection Henc as <-. apply scan_once_str.
  - discriminate.
  - inversion Hload as [ | | | | | | | ? Hloads | | ]; subst.
    destruct items as [|v items]; [injection Henc as <-; reflexivity |].
    cbn [iterencode encode_elements] in Henc. unfold rbind in Henc.
    destruct (iterencode (S level) v) as [text1|] eqn:Henc1; [| discriminate].
    destruct (encode_elements _ _ _ false items) as [more|] eqn:Hmore;
      [| discriminate].
    injection Henc as <-.
    inversion Hloads as [|? ? Hload1 Hloads']; subst.
    inversion IH as [|? ? IH1 IH']; subst.
    assert (Hreads : Forall reads_back items).
    { clear -IH' Hloads'. induction IH' as [|w items Hw _ IHr]; constructor.
      - apply Hw. now inversion Hloads'.
      - apply IHr. now inversion Hloads'. }
    repeat (cbn [app]; rewrite <- ?app_assoc).
    cbn [scan_once N.eqb Pos.eqb]. rewrite skip_ws_newline_indent.
    destruct (skip_to_value (S level) v text1
                (more ++ newline_indent level ++ 93%N :: rest) Hload1 Henc1)
      as [c [t' [E [-> H93]]]].
    rewrite H93, <- E.
    rewrite (array_items_read level items Hloads' Hreads v text1 more Hload1
               (IH1 Hload1) Henc1 Hmore fuel rest).
    + reflexivity.
    + change (size (PList (v :: items)))
        with (S (elements_size (v :: items))) in Hfuel. lia.
  - inversion Hload as [ | | | | | | | | ? Hstr Hkeys Hloads | ]; subst.
    destruct items as [|[k v] items]; [injection Henc as <-; reflexivity |].
    destruct k as [k | | | | ]; try discriminate Hstr.
    cbn [map fst forallb is_str andb] in Hstr.
    cbn [iterencode encode_members key_text] in Henc. unfold rbind in Henc.
    destruct (iterencode (S level) v) as [text1|] eqn:Henc1; [| discriminate].
    destruct (encode_members _ _ _ false items) as [more|] eqn:Hmore;
      [| discriminate].
    injection Henc as <-.
    inversion Hloads as [|? ? Hload1 Hloads']; subst.
    inversion IH as [|? ? IH1 IH']; subst. cbn [snd] in *.
    assert (Hreads : Forall (fun kv => reads_back (snd kv)) items).
    { clear -IH' Hloads'. induction IH' as [|w items Hw _ IHr]; constructor.
      - apply Hw. now inversion Hloads'.
      - apply IHr. now inversion Hloads'. }
    unfold encode_basestring.
    repeat (cbn [app]; rewrite <- ?app_assoc).
    cbn [scan_once N.eqb Pos.eqb]. rewrite skip_ws_newline_indent.
    cbn [skip_ws is_ws N.eqb orb Pos.eqb].
    rewrite (object_items_read level items Hstr Hloads' Hreads k v text1 more Hload1
               (IH1 Hload1) Henc1 Hmore fuel rest).
    + now rewrite (dict_of_pairs_distinct _ Hkeys).
    + change (size (PDict ((LStr k, v) :: items)))
        with (S (members_size ((LStr k, v) :: items))) in Hfuel. lia.
Qed.

(** Reading back what [json.dump] wrote gives the value that was
    written. *)
Lemma json_load_dump (o : pyval) (text : pystr) :
  loadable o ->
  json_dump o = Ok text ->
  json_load text = Ok o.
Proof.
  intros Hload Hdump. unfold json_dump in Hdump. unfold json_load.
  destruct (starts_value_head _ (iterencode_starts 0 o text Hload Hdump))
    as [c [t [E [Hws [_ Hbom]]]]].
  assert (Hnobom : startswith [0xFEFF%N] text = false).
  { rewrite E. cbn [startswith]. rewrite N.eqb_sym in Hbom. now rewrite Hbom. }
  rewrite Hnobom.
  assert (Hskip : skip_ws text = text) by (rewrite E; now apply skip_ws_head).
  rewrite Hskip.
  pose proof (loadable_reads_back o Hload 0%nat text Hdump
                (S (List.length text)) [] ) as Hback.
  rewrite app_nil_r in Hback. rewrite Hback; [reflexivity | | reflexivity].
  pose proof (iterencode_fits o Hload 0%nat text Hdump). lia.
Qed.

(* ================================================================== *)
(** ** The whole run *)

(** The loop touches neither the files nor the printed lines. *)
Lemma for_each_row_quiet (rows : list Series) :
  forall payment_list w out w',
    for_each_row rows payment_list w = Ok (out, w') ->
    files w' = files w /\ stdout w' = stdout w.
Proof.
  induction rows as [|row rest IH]; intros payment_list w out w' Hrun.
  - simpl in Hrun. unfold ret in Hrun. injection Hrun as _ <-. now split.
  - cbn [for_each_row] in Hrun. unfold bind at 1, lift at 1 in Hrun.
    destruct (iloc row 1) as [code|]; [| discriminate].
    unfold bind at 1, lift at 1 in Hrun.
    destruct (iloc row 2) as [account|]; [| discriminate].
    unfold bind at 1, lift at 1 in Hrun.
    destruct (assess_feedback_quality row) as [score|]; [| discriminate].
    destruct (score >=? 3).
    + unfold bind at 1, new_uuid at 1 in Hrun.
      unfold bind at 1, timestamp at 1 in Hrun.
      apply IH in Hrun. exact Hrun.
    + apply IH in Hrun. exact Hrun.
Qed.

(** A run that returns went through the loop, encoded the list, wrote
    the file and printed the count. *)
Lemma process_steps (df : DataFrame) (w : world) out w' :
  process_questionnaire_responses df w = Ok (out, w') ->
  exists w1 text,
    for_each_row (iterrows df) [] w = Ok (out, w1) /\
    json_dump (PList (map as_dict out)) = Ok text /\
    w' = after_export w1 text (List.length out).
Proof.
  unfold process_questionnaire_responses. intros Hrun.
  unfold bind at 1 in Hrun.
  destruct (for_each_row (iterrows df) [] w) as [[payment_list w1]|] eqn:Hloop;
    [| discriminate].
  unfold bind at 1, today at 1 in Hrun.
  unfold bind at 1, lift at 1 in Hrun.
  destruct (json_dump (PList (map as_dict payment_list))) as [text|] eqn:Hdump;
    [| discriminate].
  unfold bind, write_file, print, ret in Hrun. cbn in Hrun.
  injection Hrun as <- <-. exists w1, text. repeat split; assumption.
Qed.

Lemma process_run (df : DataFrame) (w w1 : world) out text :
  for_each_row (iterrows df) [] w = Ok (out, w1) ->
  json_dump (PList (map as_dict out)) = Ok text ->
  process_questionnaire_responses df w
  = Ok (out, after_export w1 text (List.length out)).
Proof.
  intros Hloop Hdump. unfold process_questionnaire_responses.
  unfold bind at 1. rewrite Hloop.
  unfold bind at 1, today at 1. unfold bind at 1, lift at 1. rewrite Hdump.
  reflexivity.
Qed.

(** The records of a run that returns are the qualifying rows' records,
    in row order. *)
Lemma process_records (df : DataFrame) (w : world) out w' :
  process_questionnaire_responses df w = Ok (out, w') ->
  Forall2 made_from out (filter qualifies (iterrows df)).
Proof.
  intros Hrun. destruct (process_steps df w out w' Hrun) as [w1 [text [Hloop _]]].
  destruct (for_each_row_records _ _ _ _ _ Hloop) as [new [-> Hnew]].
  exact Hnew.
Qed.

(** *** When the run returns *)

Lemma encode_elements_ok (items : list pyval) :
  Forall (fun o => serializable o = true ->
                   forall level, exists text, iterencode level o = Ok text) items ->
  forallb serializable items = true ->
  forall level newline separator first, exists body,
    encode_elements (iterencode level) newline separator first items = Ok body.
Proof.
  induction 1 as [|x l Hx _ IHl]; intros Hser level newline separator first.
  - simpl. eauto.
  - simpl in Hser. apply andb_true_iff in Hser as [Hsx Hsl].
    destruct (Hx Hsx level) as [text Ht].
    destruct (IHl Hsl level newline separator false) as [more Hm].
    cbn [encode_elements]. rewrite Ht, Hm. simpl. eauto.
Qed.

Lemma key_text_ok (l : label) :
  label_serializable l = true -> exists key, key_text l = Ok key.
Proof. destruct l as [s | z | f | [|] | t]; simpl; intros H; eauto; discriminate. Qed.

Lemma encode_members_ok (items : list (label * pyval)) :
  Forall (fun kv => serializable (snd kv) = true ->
                    forall level, exists text, iterencode level (snd kv) = Ok text)
         items ->
  forallb (fun kv => label_serializable (fst kv) && serializable (snd kv)) items
  = true ->
  forall level newline separator first, exists body,
    encode_members (iterencode level) newline separator first items = Ok body.
Proof.
  induction 1 as [|[k x] l Hx _ IHl]; intros Hser level newline separator first.
  - simpl. eauto.
  - simpl in Hser. apply andb_true_iff in Hser as [Hsx Hsl].
    apply andb_true_iff in Hsx as [Hk Hsx].
    destruct (key_text_ok k Hk) as [key Hkey].
    destruct (Hx Hsx level) as [text Ht]. cbn [snd] in Ht.
    destruct (IHl Hsl level newline separator false) as [more Hm].
    cbn [encode_members]. rewrite Hkey, Ht, Hm. simpl. eauto.
Qed.

(** A value without foreign objects and without Timestamp keys has an
    encoding. *)
Lemma encode_serializable (o : pyval) :
  serializable o = true -> forall level, exists text, iterencode level o = Ok text.
Proof.
  induction o as [ | b | z | f | s | t | items IH | items IH]
    using pyval_nested_ind; intros Hser level; try (simpl; eauto; fail).
  - destruct b; simpl; eauto.
  - discriminate.
  - destruct items as [|v items]; [simpl; eauto |].
    destruct (encode_elements_ok _ IH Hser (S level) (newline_indent (S level))
                (44%N :: newline_indent (S level)) true) as [body Hbody].
    cbn [iterencode]. rewrite Hbody. simpl. eauto.
  - destruct items as [|[k v] items]; [simpl; eauto |].
    destruct (encode_members_ok _ IH Hser (S level) (newline_indent (S level))
                (44%N :: newline_indent (S level)) true) as [body Hbody].
    cbn [iterencode]. rewrite Hbody. simpl. eauto.
Qed.

(** The keys of [d] after [d[k] = v] are those of [d], and [k]. *)
Lemma dict_set_keys_in {V} (d : list (label * V)) (k : label) (v : V) x :
  In x (map fst (dict_set d k v)) -> In x (map fst d) \/ x = k.
Proof.
  induction d as [|[k' v'] d IH]; simpl.
  - intros [<- | []]. now right.
  - destruct (label_eqb k' k); simpl.
    + intros H. now left.
    + intros [<- | Hin]; [left; now left |].
      destruct (IH Hin) as [H | H]; [left; now right | now right].
Qed.

(** The values of [d] after [d[k] = v] are among those of [d], and [v]. *)
Lemma dict_set_values_in {V} (d : list (label * V)) (k : label) (v : V) y :
  In y (map snd (dict_set d k v)) -> In y (map snd d) \/ y = v.
Proof.
  induction d as [|[k' v'] d IH]; simpl.
  - intros [<- | []]. now right.
  - destruct (label_eqb k' k); simpl.
    + intros [<- | Hin]; [now right | left; now right].
    + intros [<- | Hin]; [left; now left |].
      destruct (IH Hin) as [H | H]; [left; now right | now right].
Qed.

Lemma dict_of_pairs_keys_in {V} (pairs : list (label * V)) x :
  In x (map fst (dict_of_pairs pairs)) -> In x (map fst pairs).
Proof.
  unfold dict_of_pairs.
  assert (Hgen : forall acc, In x (map fst (fold_left
            (fun d kv0 => dict_set d (fst kv0) (snd kv0)) pairs acc)) ->
          In x (map fst acc) \/ In x (map fst pairs)).
  { induction pairs as [|[k v] pairs IH]; intros acc Hin; simpl in *.
    - now left.
    - destruct (IH _ Hin) as [H | H]; [| right; now right].
      destruct (dict_set_keys_in _ _ _ _ H) as [H' | ->];
        [now left | right; now left]. }
  intros Hin. destruct (Hgen [] Hin) as [[] | H]. exact H.
Qed.

Lemma dict_of_pairs_values_in {V} (pairs : list (label * V)) y :
  In y (map snd (dict_of_pairs pairs)) -> In y (map snd pairs).
Proof.
  unfold dict_of_pairs.
  assert (Hgen : forall acc, In y (map snd (fold_left
            (fun d kv0 => dict_set d (fst kv0) (snd kv0)) pairs acc)) ->
          In y (map snd acc) \/ In y (map snd pairs)).
  { induction pairs as [|[k v] pairs IH]; intros acc Hin; simpl in *.
    - now left.
    - destruct (IH _ Hin) as [H | H]; [| right; now right].
      destruct (dict_set_values_in _ _ _ _ H) as [H' | ->];
        [now left | right; now left]. }
  intros Hin. destruct (Hgen [] Hin) as [[] | H]. exact H.
Qed.

Lemma combine_keys_in {A B} (l : list A) (l' : list B) x :
  In x (map fst (combine l l')) -> In x l.
Proof.
  intros Hin. apply in_map_iff in Hin as [[a b] [<- Hin]].
  now apply in_combine_l in Hin.
Qed.

Lemma combine_values_in {A B} (l : list A) (l' : list B) y :
  In y (map snd (combine l l')) -> In y l'.
Proof.
  intros Hin. apply in_map_iff in Hin as [[a b] [<- Hin]].
  now apply in_combine_r in Hin.
Qed.

Lemma pyval_of_cell_serializable (c : cell) :
  serializable (pyval_of_cell c) = cell_serializable c.
Proof. now destruct c. Qed.

(** A cell [json.dump] can encode is handed out by the Series as it is. *)
Lemma box_native_serializable (c : cell) :
  cell_serializable c = true -> cell_serializable (box_native c) = true.
Proof. now destruct c. Qed.

(** A record made from a row of encodable cells under encodable labels
    is encodable. *)
Lemma made_from_serializable (p : payment_info) (row : Series) :
  made_from p row ->
  Forall (fun c => cell_serializable c = true) (values row) ->
  Forall (fun l => label_serializable l = true) (index row) ->
  serializable (as_dict p) = true.
Proof.
  intros (Hcode & Haccount & _ & Hdata & _) Hcells Hlabels.
  rewrite Forall_forall in Hcells, Hlabels.
  unfold iloc in Hcode, Haccount.
  destruct (nth_error (values row) 1) as [c1|] eqn:H1; [| discriminate].
  destruct (nth_error (values row) 2) as [c2|] eqn:H2; [| discriminate].
  injection Hcode as ->. injection Haccount as ->.
  apply nth_error_In in H1, H2.
  unfold as_dict. cbn [serializable forallb fst snd label_serializable].
  rewrite !pyval_of_cell_serializable, (Hcells _ H1), (Hcells _ H2).
  cbn [andb]. rewrite andb_true_r.
  rewrite forallb_forall. intros [k o] Hin. cbn [fst snd].
  apply in_map_iff in Hin as [[k' c] [E Hin]]. injection E as <- <-.
  rewrite Hdata in Hin. unfold to_dict in Hin.
  apply andb_true_iff. split.
  - apply Hlabels. apply (combine_keys_in _ (map box_native (values row))).
    apply dict_of_pairs_keys_in. apply in_map_iff. now exists (k', c).
  - rewrite pyval_of_cell_serializable.
    assert (Hc : In c (map box_native (values row))).
    { apply (combine_values_in (index row)). apply dict_of_pairs_values_in.
      apply in_map_iff. now exists (k', c). }
    apply in_map_iff in Hc as [c0 [<- Hc0]].
    apply box_native_serializable. now apply Hcells.
Qed.

Lemma rows_wide (df : DataFrame) :
  wide_enough df ->
  Forall (fun row => (8 <= List.length (values row))%nat) (iterrows df).
Proof.
  intros Hrows. unfold iterrows. rewrite Forall_map. exact Hrows.
Qed.

Lemma Forall2_pick {A B} (R : A -> B -> Prop) (l : list A) (l' : list B) (x : A) :
  Forall2 R l l' -> In x l -> exists y, In y l' /\ R x y.
Proof.
  induction 1 as [|a b l l' Hab _ IH]; intros Hin; [destruct Hin |].
  destruct Hin as [<- | Hin].
  - exists b. split; [now left | assumption].
  - destruct (IH Hin) as [y [Hy Hxy]]. exists y. split; [now right | assumption].
Qed.

(** On a table of rows with 8 cells or more whose qualifying rows are
    encodable, the run returns. *)
Lemma process_returns (df : DataFrame) (w : world) :
  wide_enough df -> exportable df ->
  exists out w', process_questionnaire_responses df w = Ok (out, w').
Proof.
  intros Hshape Hexp.
  destruct (for_each_row_returns _ (rows_wide df Hshape) [] w) as [out [w1 Hloop]].
  destruct (for_each_row_records _ _ _ _ _ Hloop) as [new [E Hnew]].
  simpl in E. subst new.
  assert (Hser : serializable (PList (map as_dict out)) = true).
  { cbn [serializable]. rewrite forallb_forall. intros o Ho.
    apply in_map_iff in Ho as [p [<- Hp]].
    destruct (Forall2_pick _ _ _ _ Hnew Hp) as [row [Hrow Hmade]].
    apply filter_In in Hrow as [Hrow Hq].
    unfold exportable in Hexp. rewrite Forall_forall in Hexp.
    destruct (Hexp row Hrow Hq) as [Hcells Hlabels].
    exact (made_from_serializable p row Hmade Hcells Hlabels). }
  destruct (encode_serializable _ Hser 0%nat) as [text Hdump].
  exists out, (after_export w1 text (List.length out)).
  now apply process_run.
Qed.

(* ================================================================== *)
(** ** The claims about the batch processor *)

(** C3: on a table whose rows have 8 cells or more and whose qualifying
    rows can be encoded, the run returns a list with exactly one record
    for each row scoring 3 or more, in row order; so its length is the
    number of such rows. *)
Theorem one_record_per_qualifying_row (df : DataFrame) (w : world) :
  wide_enough df -> exportable df ->
  exists out w',
    process_questionnaire_responses df w = Ok (out, w') /\
    Forall2 made_from out (filter qualifies (iterrows df)) /\
    List.length out = List.length (filter qualifies (iterrows df)).
Proof.
  intros Hshape Hexp.
  destruct (process_returns df w Hshape Hexp) as [out [w' Hrun]].
  exists out, w'. split; [exact Hrun |].
  pose proof (process_records df w out w' Hrun) as Hrecords.
  split; [exact Hrecords | exact (Forall2_length Hrecords)].
Qed.

(** C4: every record of the returned list has amount 3.00 and payment
    status ['pending']. *)
Theorem records_amount_and_status (df : DataFrame) (w : world) out w' :
  process_questionnaire_responses df w = Ok (out, w') ->
  Forall (fun p => amount p = FFin 3.00%float /\
                   payment_status p = lit "pending") out.
Proof.
  intros Hrun. pose proof (process_records df w out w' Hrun) as Hrecords.
  clear Hrun. induction Hrecords as [|p row out rows Hmade _ IH]; constructor.
  - destruct Hmade as (_ & _ & _ & _ & Hamount & Hstatus). now split.
  - exact IH.
Qed.

(** C5: the record of a qualifying row carries the row's cell 1 as its
    feedback code and the row's cell 2 as its Alipay account. *)
Theorem records_code_and_account (df : DataFrame) (w : world) out w' :
  process_questionnaire_responses df w = Ok (out, w') ->
  Forall2 (fun p row =>
             nth_error (values row) 1 = Some (feedback_code p) /\
             nth_error (values row) 2 = Some (alipay_account p))
          out (filter qualifies (iterrows df)).
Proof.
  intros Hrun. pose proof (process_records df w out w' Hrun) as Hrecords.
  clear Hrun. induction Hrecords as [|p row out rows Hmade _ IH]; constructor.
  - destruct Hmade as (Hcode & Haccount & _). unfold iloc in Hcode, Haccount.
    destruct (nth_error (values row) 1); [| discriminate].
    destruct (nth_error (values row) 2); [| discriminate].
    injection Hcode as ->. injection Haccount as ->. now split.
  - exact IH.
Qed.

(* ================================================================== *)
(** ** The written file reads back *)

(** The keys after [d[k] = v]: [k] comes last when it is new. *)
Lemma dict_set_keys {V} (d : list (label * V)) (k : label) (v : V) :
  map fst (dict_set d k v)
  = if fresh_after (map fst d) k then map fst d ++ [k] else map fst d.
Proof.
  induction d as [|[k' v'] d IH]; [reflexivity |].
  cbn [dict_set map fst fresh_after forallb].
  destruct (label_eqb k' k); cbn [negb andb map fst]; [reflexivity |].
  rewrite IH. unfold fresh_after. now destruct (forallb _ (map fst d)).
Qed.

Lemma keys_distinct_snoc (keys : list label) (k : label) :
  keys_distinct (keys ++ [k]) = keys_distinct keys && fresh_after keys k.
Proof.
  induction keys as [|a keys IH]; [reflexivity |].
  change (fresh_after (a :: keys) k)
    with (negb (label_eqb a k) && fresh_after keys k).
  cbn [app keys_distinct]. rewrite IH, forallb_app. cbn [forallb].
  destruct (forallb (fun k' => negb (label_eqb a k')) keys), (label_eqb a k),
    (keys_distinct keys), (fresh_after keys k); reflexivity.
Qed.

Lemma dict_set_keys_distinct {V} (d : list (label * V)) (k : label) (v : V) :
  keys_distinct (map fst d) = true ->
  keys_distinct (map fst (dict_set d k v)) = true.
Proof.
  intros Hd. rewrite dict_set_keys.
  destruct (fresh_after (map fst d) k) eqn:E; [| exact Hd].
  now rewrite keys_distinct_snoc, Hd, E.
Qed.

(** [dict(pairs)] has distinct keys, as every dict. *)
Lemma dict_of_pairs_keys_distinct {V} (pairs : list (label * V)) :
  keys_distinct (map fst (dict_of_pairs pairs)) = true.
Proof.
  unfold dict_of_pairs.
  assert (Hgen : forall acc : list (label * V),
            keys_distinct (map fst acc) = true ->
            keys_distinct (map fst (fold_left
              (fun d kv => dict_set d (fst kv) (snd kv)) pairs acc)) = true).
  { induction pairs as [|[k v] pairs IH]; intros acc Hacc; simpl.
    - exact Hacc.
    - apply IH. now apply dict_set_keys_distinct. }
  apply Hgen. reflexivity.
Qed.

(** [dict(pairs)] of pairs under text keys has text keys. *)
Lemma dict_of_pairs_str_keys {V} (pairs : list (label * V)) :
  forallb is_str (map fst pairs) = true ->
  forallb is_str (map fst (dict_of_pairs pairs)) = true.
Proof.
  rewrite !forallb_forall. intros Hstr k Hk.
  apply Hstr. now apply dict_of_pairs_keys_in.
Qed.

Lemma cell_loadable (c : cell) :
  Forall float_faithful (cell_floats c) -> loadable (pyval_of_cell c).
Proof.
  destruct c as [s | z | [ | neg | x] | b | t | z]; simpl; intros Hf;
    try constructor.
  now inversion Hf.
Qed.

(** A record whose data keys are texts, and distinct, and whose floats
    are faithful is a loadable dict. *)
Lemma record_loadable (p : payment_info) :
  forallb is_str (map fst (feedback_data p)) = true ->
  keys_distinct (map fst (feedback_data p)) = true ->
  Forall float_faithful (record_floats p) ->
  loadable (as_dict p).
Proof.
  intros Hstr Hkeys Hfloats. unfold record_floats in Hfloats.
  apply Forall_app in Hfloats as [Hamount Hfloats].
  apply Forall_app in Hfloats as [Hcode Hfloats].
  apply Forall_app in Hfloats as [Haccount Hdata].
  unfold as_dict. constructor; [reflexivity | reflexivity |].
  repeat constructor; cbn [snd].
  - now apply cell_loadable.
  - now apply cell_loadable.
  - destruct (amount p) as [ | neg | x]; constructor. now inversion Hamount.
  - rewrite map_map. cbn [fst]. exact Hstr.
  - rewrite map_map. cbn [fst]. exact Hkeys.
  - rewrite Forall_map. cbn [snd].
    rewrite Forall_forall. intros [k c] Hin. cbn [snd].
    apply cell_loadable. rewrite Forall_forall in Hdata |- *.
    intros x Hx. apply Hdata. apply in_flat_map. now exists (k, c).
Qed.

Lemma payment_list_loadable (payment_list : list payment_info) :
  Forall (fun p => forallb is_str (map fst (feedback_data p)) = true)
         payment_list ->
  Forall (fun p => keys_distinct (map fst (feedback_data p)) = true)
         payment_list ->
  Forall float_faithful (flat_map record_floats payment_list) ->
  loadable (PList (map as_dict payment_list)).
Proof.
  intros Hstr Hkeys Hfloats. constructor. rewrite Forall_map.
  induction Hstr as [|p l Hp _ IH]; constructor.
  - apply record_loadable; [exact Hp | now inversion Hkeys |].
    simpl in Hfloats. now apply Forall_app in Hfloats as [H _].
  - apply IH; [now inversion Hkeys |].
    simpl in Hfloats. now apply Forall_app in Hfloats as [_ H].
Qed.

(** C8, amended: take a list of payment records whose data keys (the
    column labels) are strings, distinct as the keys of a dict are, and
    that [json.dump] can encode.  Reading the written text back with
    [json.load] gives the same list of dicts.  [repr] and [float] are
    assumed to agree on the finite floats of the records. *)
Theorem payment_list_round_trip (payment_list : list payment_info) (text : pystr) :
  Forall (fun p => forallb is_str (map fst (feedback_data p)) = true)
         payment_list ->
  Forall (fun p => keys_distinct (map fst (feedback_data p)) = true)
         payment_list ->
  Forall float_faithful (flat_map record_floats payment_list) ->
  json_dump (PList (map as_dict payment_list)) = Ok text ->
  json_load text = Ok (PList (map as_dict payment_list)).
Proof.
  intros Hstr Hkeys Hfloats Hdump.
  exact (json_load_dump _ text (payment_list_loadable _ Hstr Hkeys Hfloats) Hdump).
Qed.

(* ================================================================== *)
(** ** More about the scorer *)

(** X1: the scorer raises exactly on rows of fewer than 8 cells, and
    what it raises is [IndexError]. *)
Theorem assess_raises_iff_short (row : Series) (e : exn) :
  assess_feedback_quality row = Raise e <->
  e = IndexError /\ (List.length (values row) < 8)%nat.
Proof.
  destruct (Compare_dec.le_lt_dec 8 (List.length (values row))) as [Hwide | Hshort].
  - rewrite (assess_on_text_forms row Hwide). split; [discriminate |].
    intros [_ H]. lia.
  - rewrite (assess_short_row row Hshort). split.
    + intros H. injection H as <-. now split.
    + intros [-> _]. reflexivity.
Qed.

(** X2: the score depends on the cells at positions 4 to 7 only: two
    rows of 8 cells or more that agree there get the same score. *)
Theorem assess_reads_only_text_cells (row row' : Series) :
  (8 <= List.length (values row))%nat ->
  (8 <= List.length (values row'))%nat ->
  firstn 4 (skipn 4 (values row)) = firstn 4 (skipn 4 (values row')) ->
  assess_feedback_quality row = assess_feedback_quality row'.
Proof.
  intros H H' Hsame.
  rewrite (assess_on_text_forms row H), (assess_on_text_forms row' H').
  unfold text_forms. now rewrite Hsame.
Qed.

Lemma points_at_most_4 (row : Series) :
  (8 <= List.length (values row))%nat ->
  0 <= len (filter earns_point (text_forms row)) <= 4.
Proof.
  intros H. pose proof (text_forms_length row H) as Hlen.
  pose proof (filter_length_le earns_point (text_forms row)) as Hle.
  unfold len. lia.
Qed.

(** X3: a row passes the batch's threshold ([score >= 3]) exactly when
    it earns two points or more: long text fields plus the keyword
    bonus. *)
Theorem qualifies_iff_two_points (row : Series) :
  (8 <= List.length (values row))%nat ->
  qualifies row = true <->
  2 <= len (filter earns_point (text_forms row)) + keyword_bonus (text_forms row).
Proof.
  intros H. unfold qualifies.
  rewrite (assess_on_text_forms row H), loop_counts.
  pose proof (points_at_most_4 row H).
  pose proof (keyword_bonus_range (text_forms row)).
  rewrite Z.geb_le. lia.
Qed.

(** X4: the cap at 5 cuts the total only for a row with four long text
    fields and a keyword (total 6); every other row scores 1 plus its
    points. *)
Theorem cap_cuts_only_six (row : Series) :
  (8 <= List.length (values row))%nat ->
  assess_feedback_quality row =
  Ok (if (len (filter earns_point (text_forms row)) =? 4)
         && (keyword_bonus (text_forms row) =? 1)
      then 5
      else 1 + len (filter earns_point (text_forms row))
             + keyword_bonus (text_forms row)).
Proof.
  intros H. rewrite (assess_on_text_forms row H), loop_counts.
  pose proof (points_at_most_4 row H).
  pose proof (keyword_bonus_range (text_forms row)).
  f_equal.
  destruct (Z.eqb_spec (len (filter earns_point (text_forms row))) 4);
    destruct (Z.eqb_spec (keyword_bonus (text_forms row)) 1); cbn [andb]; lia.
Qed.

(** *** Lowering and joining do not create keywords *)

Lemma keyword_chars_high (k : N) :
  In k keyword_chars -> (0x4E00 <= k)%N.
Proof.
  intros H. simpl in H.
  repeat (destruct H as [<- | H]; [lia |]). destruct H.
Qed.

Lemma keyword_word_chars (word : pystr) :
  In word keywords ->
  word <> [] /\ forall k, In k word -> In k keyword_chars.
Proof.
  intros Hword. split.
  - simpl in Hword.
    repeat (destruct Hword as [<- | Hword]; [discriminate |]). destruct Hword.
  - intros k Hk. apply in_concat. now exists word.
Qed.

(** A keyword character in the lowered form of [c] means that [c] is
    that character, lowered to itself. *)
Lemma lower_image (before after : pystr) (c k : N) :
  table_respects_keywords ->
  In k keyword_chars ->
  In k (lower_ucs4 before c after) ->
  c = k /\ lower_ucs4 before c after = [k].
Proof.
  intros (Hfixed & Honly & _) Hk Hin. pose proof (keyword_chars_high k Hk) as Hhigh.
  unfold lower_ucs4 in *.
  destruct (N.ltb_spec c 128) as [Hascii | Hwide].
  - destruct Hin as [E | []]. unfold ascii_lower in E.
    destruct (N.leb 65 c && N.leb c 90)%bool; lia.
  - destruct (N.eqb_spec c 0x3A3) as [-> | Hsigma].
    + destruct Hin as [E | []]. destruct (final_sigma before after); lia.
    + pose proof (Honly c k Hk Hin) as ->. split; [reflexivity | now apply Hfixed].
Qed.

Lemma lower_image_nonempty (before after : pystr) (c : N) :
  table_respects_keywords -> lower_ucs4 before c after <> [].
Proof.
  intros (_ & _ & Hnonempty). unfold lower_ucs4.
  destruct (N.ltb c 128); [discriminate |].
  destruct (N.eqb c 0x3A3); [discriminate | apply Hnonempty].
Qed.

Lemma startswith_lowered (w : pystr) :
  table_respects_keywords ->
  (forall k, In k w -> In k keyword_chars) ->
  forall before s,
    startswith w (do_lower before s) = true -> startswith w s = true.
Proof.
  intros Htable. induction w as [|k w IH]; intros Hw before s Hstart;
    [reflexivity |].
  destruct s as [|c rest]; [discriminate Hstart |].
  cbn [do_lower] in Hstart.
  pose proof (lower_image_nonempty before rest c Htable) as Hne.
  destruct (lower_ucs4 before c rest) as [|x img] eqn:Himg; [now elim Hne |].
  cbn [app startswith] in Hstart.
  apply andb_true_iff in Hstart as [Hkx Hrest]. apply N.eqb_eq in Hkx. subst x.
  assert (Hin : In k (lower_ucs4 before c rest)) by (rewrite Himg; now left).
  destruct (lower_image before rest c k Htable (Hw k (or_introl eq_refl)) Hin)
    as [-> Hone].
  rewrite Hone in Himg. injection Himg as <-. cbn [app] in Hrest.
  cbn [startswith]. rewrite N.eqb_refl. cbn [andb].
  apply (IH (fun j Hj => Hw j (or_intror Hj)) _ _ Hrest).
Qed.

Lemma contains_skip (k : N) (w img rest : pystr) :
  ~ In k img ->
  contains (k :: w) (img ++ rest) = contains (k :: w) rest.
Proof.
  induction img as [|x img IH]; intros Hnot; [reflexivity |].
  cbn [app contains startswith].
  destruct (N.eqb_spec k x) as [-> | _]; [elim Hnot; now left |].
  cbn [andb orb]. apply IH. intros Hin. apply Hnot. now right.
Qed.

Lemma contains_lowered (w : pystr) :
  table_respects_keywords ->
  w <> [] ->
  (forall k, In k w -> In k keyword_chars) ->
  forall s before,
    contains w (do_lower before s) = true -> contains w s = true.
Proof.
  intros Htable Hne Hw. destruct w as [|k w]; [now elim Hne |].
  induction s as [|c rest IH]; intros before Hin; [discriminate Hin |].
  cbn [do_lower] in Hin.
  destruct (in_dec N.eq_dec k (lower_ucs4 before c rest)) as [Hk | Hk].
  - destruct (lower_image before rest c k Htable (Hw k (or_introl eq_refl)) Hk)
      as [-> Hone].
    rewrite Hone in Hin. cbn [app contains] in Hin.
    cbn [contains]. apply orb_true_iff in Hin as [Hstart | Hlater].
    + cbn [startswith] in Hstart |- *. rewrite N.eqb_refl in *. cbn [andb] in *.
      rewrite (startswith_lowered w Htable (fun j Hj => Hw j (or_intror Hj))
                 _ _ Hstart). reflexivity.
    + rewrite (IH _ Hlater). apply orb_true_r.
  - rewrite (contains_skip k w _ _ Hk) in Hin.
    cbn [contains]. rewrite (IH _ Hin). apply orb_true_r.
Qed.

(** X5: [.lower()] has no effect on the keyword test: a keyword is in
    the lowered text exactly when it is in the text itself (for a
    lower-case table that respects the keywords' characters). *)
Theorem lower_is_neutral_for_keywords (s word : pystr) :
  table_respects_keywords ->
  In word keywords ->
  contains word (lower s) = contains word s.
Proof.
  intros Htable Hword.
  destruct (keyword_word_chars word Hword) as [Hne Hchars].
  destruct (contains word s) eqn:Hs.
  - apply lower_keeps_keyword; [exact (proj1 Htable) | exact Hword | exact Hs].
  - destruct (contains word (lower s)) eqn:Hl; [| reflexivity].
    unfold lower in Hl.
    rewrite (contains_lowered word Htable Hne Hchars s [] Hl) in Hs.
    discriminate.
Qed.

Lemma startswith_before_separator (w a b : pystr) (sp : N) :
  ~ In sp w ->
  startswith w (a ++ sp :: b) = true -> startswith w a = true.
Proof.
  revert a; induction w as [|k w IH]; intros a Hsp Hstart; [reflexivity |].
  destruct a as [|x a]; cbn [app startswith] in *.
  - apply andb_true_iff in Hstart as [E _]. apply N.eqb_eq in E.
    elim Hsp. now left.
  - apply andb_true_iff in Hstart as [E Hrest]. rewrite E. cbn [andb].
    apply IH; [| exact Hrest]. intros Hin. apply Hsp. now right.
Qed.

(** A word without the separator that is found in [a + sep + b] is
    found in [a] or in [b]. *)
Lemma contains_across_separator (w a b : pystr) (sp : N) :
  ~ In sp w ->
  contains w (a ++ sp :: b) = true ->
  contains w a = true \/ contains w b = true.
Proof.
  intros Hsp. induction a as [|x a IH]; intros Hin.
  - cbn [app contains] in Hin. apply orb_true_iff in Hin as [Hstart | Hb].
    + left. apply (startswith_before_separator w [] b sp Hsp) in Hstart.
      cbn [contains]. now rewrite Hstart.
    + now right.
  - cbn [app contains] in Hin. apply orb_true_iff in Hin as [Hstart | Hlater].
    + left. cbn [contains].
      change (x :: a ++ sp :: b) with ((x :: a) ++ sp :: b) in Hstart.
      now rewrite (startswith_before_separator w (x :: a) b sp Hsp Hstart).
    + destruct (IH Hlater) as [Ha | Hb]; [left | now right].
      cbn [contains]. rewrite Ha. apply orb_true_r.
Qed.

(** A word found in the joined text is found in one of the parts. *)
Lemma contains_join (w : pystr) (sp : N) (parts : list pystr) :
  w <> [] -> ~ In sp w ->
  contains w (join [sp] parts) = true ->
  exists part, In part parts /\ contains w part = true.
Proof.
  intros Hne Hsp. induction parts as [|p rest IH]; intros Hin.
  - destruct w; [now elim Hne | discriminate Hin].
  - destruct rest as [|q rest].
    + exists p. split; [now left | exact Hin].
    + change (join [sp] (p :: q :: rest))
        with (p ++ sp :: join [sp] (q :: rest)) in Hin.
      destruct (contains_across_separator w p _ sp Hsp Hin) as [Hp | Hrest].
      * exists p. split; [now left | exact Hp].
      * destruct (IH Hrest) as [part [Hpart Hc]].
        exists part. split; [now right | exact Hc].
Qed.

(** X6: the keyword bonus is given exactly when one of the text fields,
    taken alone, holds a keyword: the space the fields are joined with
    keeps a keyword from being put together out of two fields, and
    lowering creates none. *)
Theorem bonus_iff_a_field_holds_keyword (texts : list pystr) :
  table_respects_keywords ->
  keyword_bonus texts = 1 <->
  exists text word,
    In text texts /\ In word keywords /\ contains word text = true.
Proof.
  intros Htable. unfold keyword_bonus. split.
  - destruct (existsb _ keywords) eqn:Hex; [intros _ | discriminate].
    apply existsb_exists in Hex as [word [Hword Hin]].
    destruct (keyword_word_chars word Hword) as [Hne Hchars].
    unfold lower in Hin.
    apply (contains_lowered word Htable Hne Hchars) in Hin.
    assert (Hsp : ~ In 32%N word).
    { intros H32. pose proof (keyword_chars_high _ (Hchars _ H32)). lia. }
    destruct (contains_join word 32%N texts Hne Hsp Hin) as [text [Htext Hc]].
    now exists text, word.
  - intros [text [word [Htext [Hword Hin]]]].
    replace (existsb _ keywords) with true; [reflexivity |].
    symmetry. apply existsb_exists. exists word. split; [assumption |].
    apply (lower_keeps_keyword word _ (proj1 Htable) Hword).
    destruct (join_member (lit " ") text _ Htext) as [pre [post ->]].
    now apply contains_app.
Qed.

(* ================================================================== *)
(** ** More about the batch run *)

(** The head of the loop on a row of 8 cells or more: the two cells are
    read, the score is computed. *)
Lemma wide_row_reads (row : Series) :
  (8 <= List.length (values row))%nat ->
  exists code account score,
    iloc row 1 = Ok code /\ iloc row 2 = Ok account /\
    assess_feedback_quality row = Ok score.
Proof.
  intros H. destruct (assess_returns row H) as [score Hscore].
  unfold iloc. destruct row as [idx vals]. cbn [values] in *.
  destruct vals as [|c0 [|c1 [|c2 vals]]]; simpl in H; try lia.
  exists c1, c2, score. repeat split. exact Hscore.
Qed.

(** On a row of fewer than 8 cells one of the three reads raises. *)
Lemma short_row_raises (row : Series) :
  (List.length (values row) < 8)%nat ->
  iloc row 1 = Raise IndexError \/
  (exists code, iloc row 1 = Ok code /\ iloc row 2 = Raise IndexError) \/
  (exists code account,
      iloc row 1 = Ok code /\ iloc row 2 = Ok account /\
      assess_feedback_quality row = Raise IndexError).
Proof.
  intros H. pose proof (assess_short_row row H) as Hscore.
  unfold iloc. destruct row as [idx vals]. cbn [values] in *.
  destruct vals as [|c0 [|c1 [|c2 vals]]]; cbn [nth_error].
  - now left.
  - now left.
  - right. left. now exists c1.
  - right. right. now exists c1, c2.
Qed.

Lemma for_each_row_short (rows : list Series) :
  Exists (fun row => (List.length (values row) < 8)%nat) rows ->
  forall payment_list w, for_each_row rows payment_list w = Raise IndexError.
Proof.
  induction rows as [|row rest IH]; intros Hshort payment_list w;
    [inversion Hshort |].
  cbn [for_each_row].
  destruct (Compare_dec.le_lt_dec 8 (List.length (values row))) as [Hwide | Hrow].
  - assert (Hrest : Exists (fun row => (List.length (values row) < 8)%nat) rest).
    { inversion Hshort as [? ? Hhead | ? ? Htail]; subst; [lia | exact Htail]. }
    destruct (wide_row_reads row Hwide) as (code & account & score & H1 & H2 & H3).
    unfold bind at 1, lift at 1. rewrite H1.
    unfold bind at 1, lift at 1. rewrite H2.
    unfold bind at 1, lift at 1. rewrite H3.
    destruct (score >=? 3).
    + unfold bind at 1, new_uuid at 1. unfold bind at 1, timestamp at 1.
      apply IH, Hrest.
    + apply IH, Hrest.
  - destruct (short_row_raises row Hrow)
      as [H1 | [(code & H1 & H2) | (code & account & H1 & H2 & H3)]].
    + unfold bind at 1, lift at 1. now rewrite H1.
    + unfold bind at 1, lift at 1. rewrite H1.
      unfold bind at 1, lift at 1. now rewrite H2.
    + unfold bind at 1, lift at 1. rewrite H1.
      unfold bind at 1, lift at 1. rewrite H2.
      unfold bind at 1, lift at 1. now rewrite H3.
Qed.

(** X7: one row of fewer than 8 cells, wherever it stands in the table,
    aborts the whole run with [IndexError]: nothing is returned. *)
Theorem short_row_aborts_run (df : DataFrame) (w : world) :
  Exists (fun r => (List.length r < 8)%nat) (data df) ->
  process_questionnaire_responses df w = Raise IndexError.
Proof.
  intros Hshort. unfold process_questionnaire_responses.
  unfold bind at 1. rewrite for_each_row_short; [reflexivity |].
  unfold iterrows. apply Exists_exists in Hshort as [r [Hr Hlen]].
  apply Exists_exists. exists (mkSeries (columns df) r). split.
  - now apply in_map.
  - exact Hlen.
Qed.

(** What the loop reads from the world: two reads per record, the id of
    the i-th new record at read 2i and its timestamp at read 2i+1. *)
Lemma for_each_row_reads (rows : list Series) :
  forall payment_list w out w1,
    for_each_row rows payment_list w = Ok (out, w1) ->
    exists new,
      out = payment_list ++ new /\
      ticks w1 = (ticks w + 2 * List.length new)%nat /\
      forall i p, nth_error new i = Some p ->
        id p = uuid4_str (ticks w + 2 * i) /\
        created_at p = now_isoformat (ticks w + 2 * i + 1).
Proof.
  induction rows as [|row rest IH]; intros payment_list w out w1 Hrun.
  - simpl in Hrun. unfold ret in Hrun. injection Hrun as <- <-.
    exists []. rewrite app_nil_r. split; [reflexivity |].
    split; [simpl; lia |].
    intros [|i] p Hp; discriminate Hp.
  - cbn [for_each_row] in Hrun. unfold bind at 1, lift at 1 in Hrun.
    destruct (iloc row 1) as [code|]; [| discriminate].
    unfold bind at 1, lift at 1 in Hrun.
    destruct (iloc row 2) as [account|]; [| discriminate].
    unfold bind at 1, lift at 1 in Hrun.
    destruct (assess_feedback_quality row) as [score|]; [| discriminate].
    destruct (score >=? 3).
    + unfold bind at 1, new_uuid at 1 in Hrun.
      unfold bind at 1, timestamp at 1 in Hrun.
      apply IH in Hrun as [new [-> [Hticks Hreads]]].
      eexists (_ :: new). split; [now rewrite <- app_assoc |].
      cbn [ticks advance] in Hticks, Hreads.
      split; [cbn [List.length]; lia |].
      intros [|i] p Hp.
      * injection Hp as <-. cbn [id created_at].
        rewrite Nat.mul_0_r, !Nat.add_0_r.
        now rewrite Nat.add_1_r.
      * destruct (Hreads i p Hp) as [Hid Hat].
        rewrite Hid, Hat. split; f_equal; lia.
    + apply IH in Hrun as [new [-> [Hticks Hreads]]]. now exists new.
Qed.

Lemma str_eqb_refl (s : pystr) : str_eqb s s = true.
Proof. now apply str_eqb_eq. Qed.

(** Taking a file away leaves the files of other names as they are. *)
Lemma read_file_remove_other (name other : pystr) (fs : list (pystr * pystr)) :
  str_eqb name other = false ->
  read_file (remove_file name fs) other = read_file fs other.
Proof.
  intros Hother. induction fs as [|[n t] fs IH]; [reflexivity |].
  cbn [remove_file filter fst read_file].
  destruct (str_eqb n name) eqn:E; cbn [negb].
  - apply str_eqb_eq in E. subst n. rewrite Hother. exact IH.
  - cbn [read_file]. destruct (str_eqb n other); [reflexivity | exact IH].
Qed.

(** Taking a file away leaves no file of its name. *)
Lemma remove_file_none (name : pystr) (fs : list (pystr * pystr)) :
  filter (fun f => str_eqb (fst f) name) (remove_file name fs) = [].
Proof.
  induction fs as [|[n t] fs IH]; [reflexivity |].
  cbn [remove_file filter fst].
  destruct (str_eqb n name) eqn:E; cbn [negb]; [exact IH |].
  cbn [filter fst]. rewrite E. exact IH.
Qed.

(** X10: what a run that returns leaves behind.  The file named after
    the date read last holds the JSON text of the returned list; it is
    the one file of that name, so a file an earlier run of the same day
    left is replaced; the files of other names are as before.  One more
    line is printed, holding the count, and the world was read twice per
    record plus once for the date. *)
Theorem run_effects (df : DataFrame) (w : world) out w' :
  process_questionnaire_responses df w = Ok (out, w') ->
  exists text,
    json_dump (PList (map as_dict out)) = Ok text /\
    read_file (files w') (output_name (now_Ymd (ticks w + 2 * List.length out)))
    = Some text /\
    List.length
      (filter (fun f => str_eqb (fst f)
                          (output_name (now_Ymd (ticks w + 2 * List.length out))))
              (files w')) = 1%nat /\
    (forall other,
        str_eqb (output_name (now_Ymd (ticks w + 2 * List.length out))) other
        = false ->
        read_file (files w') other = read_file (files w) other) /\
    stdout w' = stdout w ++ [summary_line (List.length out)] /\
    ticks w' = (ticks w + 2 * List.length out + 1)%nat.
Proof.
  intros Hrun.
  destruct (process_steps df w out w' Hrun) as [w1 [text [Hloop [Hdump ->]]]].
  destruct (for_each_row_quiet _ _ _ _ _ Hloop) as [Hfiles Hout].
  destruct (for_each_row_reads _ _ _ _ _ Hloop) as [new [E [Hticks _]]].
  simpl in E. subst new.
  exists text. cbn [after_export files stdout ticks].
  rewrite Hfiles, Hout, Hticks.
  split; [exact Hdump |].
  split; [cbn [read_file]; now rewrite str_eqb_refl |].
  split; [cbn [filter fst]; now rewrite str_eqb_refl, remove_file_none |].
  split.
  - intros other Hother. cbn [read_file]. rewrite Hother.
    now apply read_file_remove_other.
  - split; [reflexivity | lia].
Qed.

(** X11: the i-th record of the returned list has the id drawn at read
    2i of the world and the timestamp taken at read 2i+1: each record
    gets a fresh id and its own time. *)
Theorem record_ids_and_times (df : DataFrame) (w : world) out w' :
  process_questionnaire_responses df w = Ok (out, w') ->
  forall i p, nth_error out i = Some p ->
    id p = uuid4_str (ticks w + 2 * i) /\
    created_at p = now_isoformat (ticks w + 2 * i + 1).
Proof.
  intros Hrun.
  destruct (process_steps df w out w' Hrun) as [w1 [text [Hloop _]]].
  destruct (for_each_row_reads _ _ _ _ _ Hloop) as [new [E [_ Hreads]]].
  simpl in E. subst new. exact Hreads.
Qed.

(** X12: when the id source never repeats, no two records of a run
    share an id. *)
Theorem record_ids_distinct (df : DataFrame) (w : world) out w' :
  (forall m n, uuid4_str m = uuid4_str n -> m = n) ->
  process_questionnaire_responses df w = Ok (out, w') ->
  NoDup (map id out).
Proof.
  intros Hinj Hrun.
  destruct (process_steps df w out w' Hrun) as [w1 [text [Hloop _]]].
  destruct (for_each_row_reads _ _ _ _ _ Hloop) as [new [E [_ Hreads]]].
  simpl in E. subst new.
  apply NoDup_nth_error. intros i j Hi Hsame.
  rewrite length_map in Hi. rewrite !nth_error_map in Hsame.
  destruct (nth_error out i) as [p|] eqn:Hp;
    [| apply nth_error_None in Hp; lia].
  destruct (nth_error out j) as [q|] eqn:Hq; [| discriminate Hsame].
  cbn [option_map] in Hsame. injection Hsame as Hsame.
  destruct (Hreads i p Hp) as [Hidp _]. destruct (Hreads j q Hq) as [Hidq _].
  rewrite Hidp, Hidq in Hsame. apply Hinj in Hsame. lia.
Qed.

(** X13: every record of a run carries a quality score of 3, 4 or 5. *)
Theorem record_scores_3_to_5 (df : DataFrame) (w : world) out w' :
  process_questionnaire_responses df w = Ok (out, w') ->
  Forall (fun p => 3 <= quality_score p <= 5) out.
Proof.
  intros Hrun. pose proof (process_records df w out w' Hrun) as Hrecords.
  apply Forall_forall. intros p Hp.
  destruct (Forall2_pick _ _ _ _ Hrecords Hp) as [row [Hrow Hmade]].
  apply filter_In in Hrow as [_ Hq]. unfold qualifies in Hq.
  destruct Hmade as (_ & _ & Hscore & _). rewrite Hscore in Hq.
  apply Z.geb_le in Hq. split; [exact Hq |].
  destruct (Compare_dec.le_lt_dec 8 (List.length (values row))) as [Hwide | Hshort].
  - rewrite (assess_on_text_forms row Hwide) in Hscore.
    injection Hscore as <-. lia.
  - rewrite (assess_short_row row Hshort) in Hscore. discriminate.
Qed.

(** X14: the loop over two lists of rows in a row is the loop over the
    first followed by the loop over the second, started from the list
    and the world the first one left; if the first raises, so does the
    whole. *)
Theorem for_each_row_app (rows1 rows2 : list Series)
  (payment_list : list payment_info) (w : world) :
  for_each_row (rows1 ++ rows2) payment_list w =
  match for_each_row rows1 payment_list w with
  | Ok (out, w1) => for_each_row rows2 out w1
  | Raise e => Raise e
  end.
Proof.
  revert payment_list w. induction rows1 as [|row rest IH]; intros payment_list w.
  - reflexivity.
  - cbn [app for_each_row]. unfold bind, lift, new_uuid, timestamp.
    destruct (iloc row 1) as [code|]; [| reflexivity].
    destruct (iloc row 2) as [account|]; [| reflexivity].
    destruct (assess_feedback_quality row) as [score|]; [| reflexivity].
    destruct (score >=? 3); apply IH.
Qed.

(** The loop leaves list and world alone on rows that do not qualify. *)
Lemma for_each_row_none (rows : list Series) :
  Forall (fun row => (8 <= List.length (values row))%nat) rows ->
  Forall (fun row => qualifies row = false) rows ->
  forall payment_list w, for_each_row rows payment_list w = Ok (payment_list, w).
Proof.
  induction 1 as [|row rest Hwide _ IH]; intros Hnone payment_list w;
    [reflexivity |].
  inversion Hnone as [|? ? Hrow Hrest]; subst.
  destruct (wide_row_reads row Hwide) as (code & account & score & H1 & H2 & H3).
  cbn [for_each_row].
  unfold bind at 1, lift at 1. rewrite H1.
  unfold bind at 1, lift at 1. rewrite H2.
  unfold bind at 1, lift at 1. rewrite H3.
  unfold qualifies in Hrow. rewrite H3 in Hrow. rewrite Hrow.
  now apply IH.
Qed.

(** X9: when no row reaches a score of 3 (as on a table without rows),
    the run returns the empty list, writes the file with the text [[]]
    and prints a count of 0, without a single id or timestamp read. *)
Theorem run_without_qualifying_rows (df : DataFrame) (w : world) :
  wide_enough df ->
  Forall (fun row => qualifies row = false) (iterrows df) ->
  process_questionnaire_responses df w
  = Ok ([], after_export w (lit "[]") 0).
Proof.
  intros Hwide Hnone.
  apply (process_run df w w [] (lit "[]")); [| reflexivity].
  apply for_each_row_none; [now apply rows_wide | exact Hnone].
Qed.

Lemma combine_keys_distinct {B} (l : list label) (l' : list B) :
  keys_distinct l = true -> keys_distinct (map fst (combine l l')) = true.
Proof.
  revert l'; induction l as [|a l IH]; intros [|b l'] Hnd; try reflexivity.
  cbn [keys_distinct] in Hnd. apply andb_true_iff in Hnd as [Ha Hnd].
  cbn [combine map fst keys_distinct]. apply andb_true_iff. split.
  - rewrite forallb_forall in Ha |- *. intros k Hk. apply Ha.
    now apply combine_keys_in in Hk.
  - now apply IH.
Qed.

(** With distinct labels, [row.to_dict()] is the labels paired with the
    cells as Python scalars, in column order. *)
Lemma to_dict_distinct_labels (row : Series) :
  keys_distinct (index row) = true ->
  to_dict row = combine (index row) (map box_native (values row)).
Proof.
  intros Hnd. unfold to_dict. apply dict_of_pairs_distinct.
  now apply combine_keys_distinct.
Qed.

(** X15: on a table with distinct column labels, the [feedback_data] of
    each record pairs the labels with the cells of its row, in column
    order, each cell as the Python scalar the Series hands out for it. *)
Theorem feedback_data_pairs_labels_with_cells (df : DataFrame) (w : world) out w' :
  keys_distinct (columns df) = true ->
  process_questionnaire_responses df w = Ok (out, w') ->
  Forall2 (fun p row =>
             feedback_data p
             = combine (columns df) (map box_native (values row)))
          out (filter qualifies (iterrows df)).
Proof.
  intros Hnd Hrun. pose proof (process_records df w out w' Hrun) as Hrecords.
  assert (Hidx : Forall (fun row => index row = columns df)
                        (filter qualifies (iterrows df))).
  { apply Forall_forall. intros row Hrow. apply filter_In in Hrow as [Hrow _].
    unfold iterrows in Hrow. apply in_map_iff in Hrow as [r [<- _]]. reflexivity. }
  clear Hrun. induction Hrecords as [|p row out rows Hmade _ IH]; constructor.
  - inversion Hidx as [|? ? Hrow _]; subst.
    destruct Hmade as (_ & _ & _ & -> & _).
    rewrite to_dict_distinct_labels; rewrite Hrow; [reflexivity | exact Hnd].
  - apply IH. now inversion Hidx.
Qed.

(* ================================================================== *)
(** ** When the export fails *)

Lemma encode_elements_sound (items : list pyval) :
  Forall (fun o => forall level text,
            iterencode level o = Ok text -> serializable o = true) items ->
  forall level newline separator first body,
    encode_elements (iterencode level) newline separator first items = Ok body ->
    forallb serializable items = true.
Proof.
  induction 1 as [|x l Hx _ IHl]; intros level newline separator first body Henc;
    [reflexivity |].
  cbn [encode_elements] in Henc. unfold rbind in Henc.
  destruct (iterencode level x) as [text|] eqn:Hxe; [| discriminate].
  destruct (encode_elements _ _ _ false l) as [more|] eqn:Hmore; [| discriminate].
  cbn [forallb]. rewrite (Hx level text Hxe).
  exact (IHl level newline separator false more Hmore).
Qed.

Lemma key_text_sound (l : label) (key : pystr) :
  key_text l = Ok key -> label_serializable l = true.
Proof. destruct l; simpl; intros H; [reflexivity .. | discriminate]. Qed.

Lemma key_text_raises (l : label) (e : exn) :
  key_text l = Raise e -> e = TypeError.
Proof.
  destruct l as [s | z | f | [|] | t]; simpl; intros H; try discriminate.
  now injection H as <-.
Qed.

Lemma encode_members_sound (items : list (label * pyval)) :
  Forall (fun kv => forall level text,
            iterencode level (snd kv) = Ok text -> serializable (snd kv) = true)
         items ->
  forall level newline separator first body,
    encode_members (iterencode level) newline separator first items = Ok body ->
    forallb (fun kv => label_serializable (fst kv) && serializable (snd kv)) items
    = true.
Proof.
  induction 1 as [|[k x] l Hx _ IHl]; intros level newline separator first body Henc;
    [reflexivity |].
  cbn [encode_members] in Henc. unfold rbind in Henc. cbn [snd] in Hx.
  destruct (key_text k) as [key|] eqn:Hkey; [| discriminate].
  destruct (iterencode level x) as [text|] eqn:Hxe; [| discriminate].
  destruct (encode_members _ _ _ false l) as [more|] eqn:Hmore; [| discriminate].
  cbn [forallb fst snd].
  rewrite (key_text_sound k key Hkey), (Hx level text Hxe).
  exact (IHl level newline separator false more Hmore).
Qed.

(** A value that has an encoding holds no foreign object and no
    Timestamp key. *)
Lemma iterencode_sound (o : pyval) :
  forall level text, iterencode level o = Ok text -> serializable o = true.
Proof.
  induction o as [ | b | z | f | s | t | items IH | items IH]
    using pyval_nested_ind; intros level text Henc; try reflexivity.
  - discriminate.
  - destruct items as [|v items]; [reflexivity |].
    cbn [iterencode] in Henc. unfold rbind in Henc.
    destruct (encode_elements _ _ _ true (v :: items)) as [body|] eqn:Hbody;
      [| discriminate].
    exact (encode_elements_sound _ IH _ _ _ _ _ Hbody).
  - destruct items as [|[k v] items]; [reflexivity |].
    cbn [iterencode] in Henc. unfold rbind in Henc.
    destruct (encode_members _ _ _ true ((k, v) :: items)) as [body|] eqn:Hbody;
      [| discriminate].
    exact (encode_members_sound _ IH _ _ _ _ _ Hbody).
Qed.

Lemma encode_elements_raises (items : list pyval) :
  Forall (fun o => forall level e,
            iterencode level o = Raise e -> e = TypeError) items ->
  forall level newline separator first e,
    encode_elements (iterencode level) newline separator first items = Raise e ->
    e = TypeError.
Proof.
  induction 1 as [|x l Hx _ IHl]; intros level newline separator first e Henc;
    [discriminate |].
  cbn [encode_elements] in Henc. unfold rbind in Henc.
  destruct (iterencode level x) as [text|] eqn:Hxe.
  - destruct (encode_elements _ _ _ false l) as [more|] eqn:Hmore;
      [discriminate |].
    injection Henc as <-. exact (IHl level newline separator false _ Hmore).
  - injection Henc as <-. exact (Hx level _ Hxe).
Qed.

Lemma encode_members_raises (items : list (label * pyval)) :
  Forall (fun kv => forall level e,
            iterencode level (snd kv) = Raise e -> e = TypeError) items ->
  forall level newline separator first e,
    encode_members (iterencode level) newline separator first items = Raise e ->
    e = TypeError.
Proof.
  induction 1 as [|[k x] l Hx _ IHl]; intros level newline separator first e Henc;
    [discriminate |].
  cbn [encode_members] in Henc. unfold rbind in Henc. cbn [snd] in Hx.
  destruct (key_text k) as [key|] eqn:Hkey.
  - destruct (iterencode level x) as [text|] eqn:Hxe.
    + destruct (encode_members _ _ _ false l) as [more|] eqn:Hmore;
        [discriminate |].
      injection Henc as <-. exact (IHl level newline separator false _ Hmore).
    + injection Henc as <-. exact (Hx level _ Hxe).
  - injection Henc as <-. exact (key_text_raises k _ Hkey).
Qed.

(** The encoder raises nothing but [TypeError]. *)
Lemma iterencode_raises (o : pyval) :
  forall level e, iterencode level o = Raise e -> e = TypeError.
Proof.
  induction o as [ | b | z | f | s | t | items IH | items IH]
    using pyval_nested_ind; intros level e Henc; try discriminate.
  - destruct b; discriminate.
  - now injection Henc as <-.
  - destruct items as [|v items]; [discriminate |].
    cbn [iterencode] in Henc. unfold rbind in Henc.
    destruct (encode_elements _ _ _ true (v :: items)) as [body|] eqn:Hbody;
      [discriminate |].
    injection Henc as <-. exact (encode_elements_raises _ IH _ _ _ _ _ Hbody).
  - destruct items as [|[k v] items]; [discriminate |].
    cbn [iterencode] in Henc. unfold rbind in Henc.
    destruct (encode_members _ _ _ true ((k, v) :: items)) as [body|] eqn:Hbody;
      [discriminate |].
    injection Henc as <-. exact (encode_members_raises _ IH _ _ _ _ _ Hbody).
Qed.

Lemma json_dump_fails (o : pyval) :
  serializable o = false -> json_dump o = Raise TypeError.
Proof.
  intros Hser. unfold json_dump.
  destruct (iterencode 0 o) as [text|e] eqn:Henc.
  - rewrite (iterencode_sound o 0%nat text Henc) in Hser. discriminate.
  - now rewrite (iterencode_raises o 0%nat e Henc).
Qed.

(** X16: on the values the script can hand to it (built from cells and
    labels), [json.dump] raises exactly when the value holds, somewhere
    inside, an object without encoding (a Timestamp or a [numpy.int64])
    or a dict with a Timestamp among its keys; what it raises is
    [TypeError]. *)
Theorem json_dump_raises_iff_unencodable (o : pyval) (e : exn) :
  json_dump o = Raise e <-> e = TypeError /\ serializable o = false.
Proof.
  split.
  - intros Hdump. split; [exact (iterencode_raises o 0%nat e Hdump) |].
    destruct (serializable o) eqn:Hser; [| reflexivity].
    destruct (encode_serializable o Hser 0%nat) as [text Henc].
    unfold json_dump in Hdump. rewrite Henc in Hdump. discriminate.
  - intros [-> Hser]. now apply json_dump_fails.
Qed.

Lemma Forall2_pick_r {A B} (R : A -> B -> Prop) (l : list A) (l' : list B) (y : B) :
  Forall2 R l l' -> In y l' -> exists x, In x l /\ R x y.
Proof.
  induction 1 as [|a b l l' Hab _ IH]; intros Hin; [destruct Hin |].
  destruct Hin as [<- | Hin].
  - exists a. split; [now left | assumption].
  - destruct (IH Hin) as [x [Hx Hxy]]. exists x. split; [now right | assumption].
Qed.

Lemma combine_covers {A B} (l : list A) (l' : list B) (y : B) :
  List.length l' = List.length l -> In y l' -> exists x, In (x, y) (combine l l').
Proof.
  revert l'; induction l as [|a l IH]; intros [|b l'] Hlen Hin;
    try discriminate Hlen; [destruct Hin |].
  destruct Hin as [<- | Hin].
  - exists a. now left.
  - injection Hlen as Hlen. destruct (IH l' Hlen Hin) as [x Hx].
    exists x. now right.
Qed.

(** A record whose data holds a cell without encoding has none itself. *)
Lemma record_with_timestamp (p : payment_info) (k : label) (c : cell) :
  In (k, c) (feedback_data p) ->
  cell_serializable c = false ->
  serializable (as_dict p) = false.
Proof.
  intros Hin Hc. destruct (serializable (as_dict p)) eqn:Hser; [| reflexivity].
  unfold as_dict in Hser. cbn [serializable forallb fst snd] in Hser.
  do 7 (apply andb_true_iff in Hser as [_ Hser]).
  apply andb_true_iff in Hser as [Hser _].
  apply andb_true_iff in Hser as [_ Hser].
  rewrite forallb_forall in Hser.
  specialize (Hser (k, pyval_of_cell c)). cbn [fst snd] in Hser.
  rewrite pyval_of_cell_serializable, Hc, andb_false_r in Hser.
  symmetry. apply Hser.
  apply in_map_iff. now exists (k, c).
Qed.

(** The run stops with [TypeError] once the loop has made a record that
    has no encoding. *)
Lemma unencodable_record_aborts (df : DataFrame) (w w1 : world) out p :
  for_each_row (iterrows df) [] w = Ok (out, w1) ->
  In p out ->
  serializable (as_dict p) = false ->
  process_questionnaire_responses df w = Raise TypeError.
Proof.
  intros Hloop Hp Hser.
  assert (Hfail : json_dump (PList (map as_dict out)) = Raise TypeError).
  { apply json_dump_fails. cbn [serializable].
    destruct (forallb serializable (map as_dict out)) eqn:Hall; [| reflexivity].
    rewrite forallb_forall in Hall. rewrite <- Hser.
    symmetry. apply Hall. now apply in_map. }
  unfold process_questionnaire_responses.
  unfold bind at 1. rewrite Hloop.
  unfold bind at 1, today at 1. unfold bind at 1, lift at 1. now rewrite Hfail.
Qed.

(** X8: on a table as pandas holds it, a date cell (a Timestamp: the
    cell that has no encoding even as the Python scalar the Series hands
    out) anywhere in a row that qualifies aborts the whole run with
    [TypeError] when the list is written: nothing is returned, also for
    the other rows. *)
Theorem timestamp_aborts_run (df : DataFrame) (w : world) :
  wide_enough df -> well_labelled df ->
  Exists (fun row => qualifies row = true /\
                     Exists (fun c => cell_serializable (box_native c) = false)
                            (values row))
         (iterrows df) ->
  process_questionnaire_responses df w = Raise TypeError.
Proof.
  intros Hwide [Hlabels Hshape] Hbad.
  destruct (for_each_row_returns _ (rows_wide df Hwide) [] w) as [out [w1 Hloop]].
  destruct (for_each_row_records _ _ _ _ _ Hloop) as [new [E Hnew]].
  simpl in E. subst new.
  apply Exists_exists in Hbad as [row [Hrow [Hq Hcell]]].
  apply Exists_exists in Hcell as [c [Hc Hser]].
  assert (Hin : In row (filter qualifies (iterrows df)))
    by (apply filter_In; now split).
  destruct (Forall2_pick_r _ _ _ _ Hnew Hin) as [p [Hp Hmade]].
  unfold iterrows in Hrow. apply in_map_iff in Hrow as [r [<- Hr]].
  rewrite Forall_forall in Hshape. specialize (Hshape r Hr).
  cbn [values] in Hc.
  assert (Hlen : List.length (map box_native r) = List.length (columns df))
    by now rewrite length_map.
  destruct (combine_covers (columns df) (map box_native r) (box_native c) Hlen
              (in_map box_native r c Hc)) as [k Hk].
  assert (Hdata : In (k, box_native c) (feedback_data p)).
  { destruct Hmade as (_ & _ & _ & -> & _).
    rewrite to_dict_distinct_labels; [exact Hk | exact Hlabels]. }
  exact (unencodable_record_aborts df w w1 out p Hloop Hp
           (record_with_timestamp p k (box_native c) Hdata Hser)).
Qed.

(** X18: a [numpy.int64] in cell 1 or cell 2 of a row that qualifies, as
    on a sheet of integers only, aborts the whole run with [TypeError]:
    the record takes these two cells as [row.iloc] gives them. *)
Theorem int64_code_aborts_run (df : DataFrame) (w : world) :
  wide_enough df ->
  Exists (fun row => qualifies row = true /\
                     exists z, nth_error (values row) 1 = Some (CInt64 z) \/
                               nth_error (values row) 2 = Some (CInt64 z))
         (iterrows df) ->
  process_questionnaire_responses df w = Raise TypeError.
Proof.
  intros Hwide Hbad.
  destruct (for_each_row_returns _ (rows_wide df Hwide) [] w) as [out [w1 Hloop]].
  destruct (for_each_row_records _ _ _ _ _ Hloop) as [new [E Hnew]].
  simpl in E. subst new.
  apply Exists_exists in Hbad as [row [Hrow [Hq [z Hz]]]].
  assert (Hin : In row (filter qualifies (iterrows df)))
    by (apply filter_In; now split).
  destruct (Forall2_pick_r _ _ _ _ Hnew Hin) as [p [Hp Hmade]].
  apply (unencodable_record_aborts df w w1 out p Hloop Hp).
  destruct Hmade as (Hcode & Haccount & _). unfold iloc in Hcode, Haccount.
  unfold as_dict. cbn [serializable forallb fst snd label_serializable andb].
  destruct Hz as [Hz | Hz].
  - rewrite Hz in Hcode. injection Hcode as <-. reflexivity.
  - rewrite Hz in Haccount. injection Haccount as <-.
    cbn [pyval_of_cell serializable]. now rewrite andb_false_r.
Qed.

(** X19: a date among the column labels aborts the run with [TypeError]
    as soon as one row qualifies: the label is a key of the row's
    [feedback_data], and no key [json.dump] writes. *)
Theorem timestamp_label_aborts_run (df : DataFrame) (w : world) :
  wide_enough df -> well_labelled df ->
  Exists (fun l => label_serializable l = false) (columns df) ->
  Exists (fun row => qualifies row = true) (iterrows df) ->
  process_questionnaire_responses df w = Raise TypeError.
Proof.
  intros Hwide [Hlabels Hshape] Hlabel Hrow.
  destruct (for_each_row_returns _ (rows_wide df Hwide) [] w) as [out [w1 Hloop]].
  destruct (for_each_row_records _ _ _ _ _ Hloop) as [new [E Hnew]].
  simpl in E. subst new.
  apply Exists_exists in Hrow as [row [Hrow Hq]].
  apply Exists_exists in Hlabel as [l [Hl Hser]].
  assert (Hin : In row (filter qualifies (iterrows df)))
    by (apply filter_In; now split).
  destruct (Forall2_pick_r _ _ _ _ Hnew Hin) as [p [Hp Hmade]].
  unfold iterrows in Hrow. apply in_map_iff in Hrow as [r [<- Hr]].
  rewrite Forall_forall in Hshape. specialize (Hshape r Hr).
  assert (Hlen : List.length (columns df) = List.length (map box_native r))
    by now rewrite length_map.
  destruct (combine_covers (map box_native r) (columns df) l Hlen Hl) as [c Hc].
  assert (Hdata : In (l, c) (feedback_data p)).
  { destruct Hmade as (_ & _ & _ & -> & _).
    rewrite to_dict_distinct_labels; [| exact Hlabels]. cbn [index values].
    clear -Hc. revert Hc. generalize (map box_native r) as cells.
    induction (columns df) as [|a ls IH]; intros [|b cells] Hc;
      try (destruct Hc; fail).
    destruct Hc as [E | Hc]; [injection E as -> ->; now left |].
    right. now apply IH. }
  apply (unencodable_record_aborts df w w1 out p Hloop Hp).
  destruct (serializable (as_dict p)) eqn:Hall; [| reflexivity].
  unfold as_dict in Hall. cbn [serializable forallb fst snd] in Hall.
  do 7 (apply andb_true_iff in Hall as [_ Hall]).
  apply andb_true_iff in Hall as [Hall _].
  apply andb_true_iff in Hall as [_ Hall].
  rewrite forallb_forall in Hall.
  specialize (Hall (l, pyval_of_cell c)). cbn [fst snd] in Hall.
  rewrite Hser in Hall. symmetry. apply Hall.
  apply in_map_iff. now exists (l, c).
Qed.

(** The keys of [row.to_dict()] are labels of the row. *)
Lemma to_dict_str_keys (row : Series) :
  forallb is_str (index row) = true ->
  forallb is_str (map fst (to_dict row)) = true.
Proof.
  intros Hstr. unfold to_dict. apply dict_of_pairs_str_keys.
  rewrite forallb_forall in Hstr |- *. intros k Hk. apply Hstr.
  now apply combine_keys_in in Hk.
Qed.

(** X17: on a table whose column labels are strings, the file a run
    wrote is found under the run's file name and, read back with
    [json.load], is the list the run returned ([repr] and [float]
    assumed to agree on the finite floats of the records). *)
Theorem run_file_reads_back (df : DataFrame) (w : world) out w' :
  forallb is_str (columns df) = true ->
  process_questionnaire_responses df w = Ok (out, w') ->
  Forall float_faithful (flat_map record_floats out) ->
  exists text,
    read_file (files w') (output_name (now_Ymd (ticks w + 2 * List.length out)))
    = Some text /\
    json_load text = Ok (PList (map as_dict out)).
Proof.
  intros Hstr Hrun Hfloats.
  destruct (process_steps df w out w' Hrun) as [w1 [text [Hloop [Hdump ->]]]].
  destruct (for_each_row_reads _ _ _ _ _ Hloop) as [new [E [Hticks _]]].
  simpl in E. subst new.
  exists text. split.
  - cbn [after_export files read_file]. rewrite Hticks.
    now rewrite str_eqb_refl.
  - apply json_load_dump; [| exact Hdump].
    destruct (for_each_row_records _ _ _ _ _ Hloop) as [new [E Hnew]].
    simpl in E. subst new.
    assert (Hidx : Forall (fun row => index row = columns df)
                          (filter qualifies (iterrows df))).
    { apply Forall_forall. intros row Hrow. apply filter_In in Hrow as [Hrow _].
      unfold iterrows in Hrow. apply in_map_iff in Hrow as [r [<- _]].
      reflexivity. }
    apply payment_list_loadable; [| | exact Hfloats]; clear -Hnew Hidx Hstr.
    + induction Hnew as [|p row out rows Hmade _ IH]; constructor.
      * destruct Hmade as (_ & _ & _ & -> & _). apply to_dict_str_keys.
        inversion Hidx as [|? ? Hrow _]; subst. now rewrite Hrow.
      * apply IH. now inversion Hidx.
    + induction Hnew as [|p row out rows Hmade _ IH]; constructor.
      * destruct Hmade as (_ & _ & _ & -> & _). apply dict_of_pairs_keys_distinct.
      * apply IH. now inversion Hidx.
Qed.

Transparent newline_indent.

End Program.

(* ================================================================== *)
(** ** The claims on the sample export *)

Lemma sample_keywords_caseless :
  forall c, In c (List.concat keywords) -> sample_ToLowerFull c = [c].
Proof. intros c _. reflexivity. Defined.

(** The long row gets the reference score (3). *)
Lemma assess_equals_reference_sample :
  assess_feedback_quality sample_ToLowerFull sample_final_sigma sample_repr
    (mkSeries sample_columns sample_row_long)
  = Ok (reference_score sample_ToLowerFull sample_final_sigma
          (text_forms sample_repr (mkSeries sample_columns sample_row_long))).
Proof.
  apply (assess_equals_reference sample_ToLowerFull sample_final_sigma
           sample_repr (mkSeries sample_columns sample_row_long)).
  simpl. lia.
Defined.

Lemma assess_in_0_5_sample :
  exists score,
    assess_feedback_quality sample_ToLowerFull sample_final_sigma sample_repr
    (mkSeries sample_columns sample_row_keyword_long) = Ok score /\
    0 <= score <= 5.
Proof.
  apply (assess_in_0_5 sample_ToLowerFull sample_final_sigma sample_repr
           (mkSeries sample_columns sample_row_keyword_long)).
  simpl. lia.
Defined.

Lemma assess_at_least_1_sample :
  exists score,
    assess_feedback_quality sample_ToLowerFull sample_final_sigma sample_repr
    (mkSeries sample_columns sample_row_blank) = Ok score /\
    1 <= score /\ score <> 0.
Proof.
  apply (assess_at_least_1 sample_ToLowerFull sample_final_sigma sample_repr
           (mkSeries sample_columns sample_row_blank)).
  simpl. lia.
Defined.

Lemma blank_row_scores_1_sample :
  assess_feedback_quality sample_ToLowerFull sample_final_sigma sample_repr
    (mkSeries sample_columns sample_row_blank) = Ok 1.
Proof.
  apply (blank_row_scores_1 sample_ToLowerFull sample_final_sigma sample_repr
           (mkSeries sample_columns sample_row_blank)).
  - simpl. lia.
  - repeat (constructor; [(left; reflexivity) || (right; reflexivity) |]).
    constructor.
Defined.

Lemma keyword_only_row_scores_2_sample :
  assess_feedback_quality sample_ToLowerFull sample_final_sigma sample_repr
    (mkSeries sample_columns sample_row_keyword) = Ok 2.
Proof.
  apply (keyword_only_row_scores_2 sample_ToLowerFull sample_final_sigma
           sample_repr (mkSeries sample_columns sample_row_keyword)).
  - exact sample_keywords_caseless.
  - simpl. lia.
  - intros text Hin. simpl in Hin.
    repeat (destruct Hin as [<- | Hin]; [vm_compute; discriminate |]).
    destruct Hin.
  - exists [0x5EFA; 0x8BAE]%N, [0x5EFA; 0x8BAE]%N.
    repeat split; [now left | now left].
Defined.

(** The sample run returns two records, for the first and the last row. *)
Lemma one_record_per_qualifying_row_sample :
  exists out w',
    process_questionnaire_responses sample_ToLowerFull sample_final_sigma
      sample_repr sample_uuid4 sample_isoformat sample_Ymd
      sample_df sample_world = Ok (out, w') /\
    Forall2 (made_from sample_ToLowerFull sample_final_sigma sample_repr) out
      (filter (qualifies sample_ToLowerFull sample_final_sigma sample_repr)
              (iterrows sample_df)) /\
    List.length out =
    List.length
      (filter (qualifies sample_ToLowerFull sample_final_sigma sample_repr)
              (iterrows sample_df)).
Proof.
  apply (one_record_per_qualifying_row sample_ToLowerFull sample_final_sigma
           sample_repr sample_uuid4 sample_isoformat sample_Ymd
           sample_df sample_world).
  - repeat (constructor; [simpl; lia |]). constructor.
  - unfold exportable. simpl iterrows.
    repeat (constructor; [intros _; repeat constructor |]).
    constructor.
Defined.

Lemma records_amount_and_status_sample :
  exists out w',
    process_questionnaire_responses sample_ToLowerFull sample_final_sigma
      sample_repr sample_uuid4 sample_isoformat sample_Ymd
      sample_df sample_world = Ok (out, w') /\
    List.length out = 2%nat /\
    Forall (fun p => amount p = FFin 3.00%float /\
                     payment_status p = lit "pending") out.
Proof.
  eexists _, _. split; [vm_compute; reflexivity |].
  split; [reflexivity |].
  eapply (records_amount_and_status sample_ToLowerFull sample_final_sigma
            sample_repr sample_uuid4 sample_isoformat sample_Ymd
            sample_df sample_world).
  vm_compute. reflexivity.
Defined.

Lemma records_code_and_account_sample :
  exists out w',
    process_questionnaire_responses sample_ToLowerFull sample_final_sigma
      sample_repr sample_uuid4 sample_isoformat sample_Ymd
      sample_df sample_world = Ok (out, w') /\
    Forall2 (fun p row =>
               nth_error (values row) 1 = Some (feedback_code p) /\
               nth_error (values row) 2 = Some (alipay_account p))
            out
            [ mkSeries sample_columns sample_row_long;
              mkSeries sample_columns sample_row_keyword_long ].
Proof.
  eexists _, _. split; [vm_compute; reflexivity |].
  eapply (records_code_and_account sample_ToLowerFull sample_final_sigma
            sample_repr sample_uuid4 sample_isoformat sample_Ymd
            sample_df sample_world).
  vm_compute. reflexivity.
Defined.

Lemma sample_float_faithful :
  float_faithful sample_repr sample_float 3.00%float.
Proof. split; reflexivity. Defined.

(** The file of the sample run, read back, is the list the run returned. *)
Lemma payment_list_round_trip_sample :
  exists out w' text,
    process_questionnaire_responses sample_ToLowerFull sample_final_sigma
      sample_repr sample_uuid4 sample_isoformat sample_Ymd
      sample_df sample_world = Ok (out, w') /\
    List.length out = 2%nat /\
    json_dump sample_repr (PList (map as_dict out)) = Ok text /\
    json_load sample_float text = Ok (PList (map as_dict out)).
Proof.
  eexists _, _, _. split; [vm_compute; reflexivity |].
  split; [reflexivity |].
  split; [vm_compute; reflexivity |].
  apply (payment_list_round_trip sample_repr sample_float).
  - repeat (constructor; [reflexivity |]). constructor.
  - repeat (constructor; [reflexivity |]). constructor.
  - repeat (constructor; [exact sample_float_faithful |]). constructor.
  - vm_compute. reflexivity.
Defined.

(** C8 as the specification states it fails on a sheet with a number in
    its header row.  The fourth column is headed 2024, an int label and
    so an int key of [feedback_data]; [json.dump] writes the key as the
    text 2024 and [json.load] gives the string ['2024'] back, so the
    records read back are not the records written. *)
Lemma numeric_label_not_read_back :
  exists out w' text loaded,
    process_questionnaire_responses sample_ToLowerFull sample_final_sigma
      sample_repr sample_uuid4 sample_isoformat sample_Ymd
      sample_df_year sample_world = Ok (out, w') /\
    Forall (float_faithful sample_repr sample_float)
           (flat_map record_floats out) /\
    json_dump sample_repr (PList (map as_dict out)) = Ok text /\
    json_load sample_float text = Ok loaded /\
    loaded <> PList (map as_dict out).
Proof.
  eexists _, _, _, _. split; [vm_compute; reflexivity |].
  split; [repeat (constructor; [exact sample_float_faithful |]); constructor |].
  split; [vm_compute; reflexivity |].
  split; [vm_compute; reflexivity |].
  vm_compute. intros H. discriminate H.
Qed.

(* ================================================================== *)
(** ** The further properties on the sample export *)

Lemma sample_table_respects_keywords :
  table_respects_keywords sample_ToLowerFull.
Proof.
  split; [| split].
  - intros c _. reflexivity.
  - intros c k _ [E | []]. exact E.
  - intros c. discriminate.
Defined.

Lemma sample_uuid4_injective :
  forall m n, sample_uuid4 m = sample_uuid4 n -> m = n.
Proof.
  intros m n H. unfold sample_uuid4 in H. apply app_inv_head in H.
  apply (f_equal parse_int) in H. rewrite !parse_int_str in H.
  now apply Nat2Z.inj.
Defined.

Lemma sample_columns_distinct : keys_distinct sample_columns = true.
Proof. reflexivity. Defined.

Lemma assess_reads_only_text_cells_sample :
  assess_feedback_quality sample_ToLowerFull sample_final_sigma sample_repr
    (mkSeries sample_columns sample_row_long)
  = assess_feedback_quality sample_ToLowerFull sample_final_sigma sample_repr
      (mkSeries [] sample_row_long_other).
Proof.
  apply (assess_reads_only_text_cells sample_ToLowerFull sample_final_sigma
           sample_repr (mkSeries sample_columns sample_row_long)
           (mkSeries [] sample_row_long_other)).
  - simpl. lia.
  - simpl. lia.
  - reflexivity.
Defined.

Lemma qualifies_iff_two_points_sample :
  qualifies sample_ToLowerFull sample_final_sigma sample_repr
    (mkSeries sample_columns sample_row_keyword) = true <->
  2 <= len (filter earns_point
              (text_forms sample_repr (mkSeries sample_columns sample_row_keyword)))
       + keyword_bonus sample_ToLowerFull sample_final_sigma
           (text_forms sample_repr (mkSeries sample_columns sample_row_keyword)).
Proof.
  apply (qualifies_iff_two_points sample_ToLowerFull sample_final_sigma
           sample_repr (mkSeries sample_columns sample_row_keyword)).
  simpl. lia.
Defined.

Lemma cap_cuts_only_six_sample :
  assess_feedback_quality sample_ToLowerFull sample_final_sigma sample_repr
    (mkSeries sample_columns sample_row_keyword_long) = Ok 4.
Proof.
  rewrite (cap_cuts_only_six sample_ToLowerFull sample_final_sigma sample_repr
             (mkSeries sample_columns sample_row_keyword_long)).
  - reflexivity.
  - simpl. lia.
Defined.

Lemma lower_is_neutral_for_keywords_sample :
  contains [0x6539; 0x8FDB]%N
    (lower sample_ToLowerFull sample_final_sigma
       (lit "PLEASE " ++ [0x6539; 0x8FDB]%N ++ lit " The Search"))
  = contains [0x6539; 0x8FDB]%N
      (lit "PLEASE " ++ [0x6539; 0x8FDB]%N ++ lit " The Search").
Proof.
  apply (lower_is_neutral_for_keywords sample_ToLowerFull sample_final_sigma).
  - exact sample_table_respects_keywords.
  - simpl. tauto.
Defined.

Lemma bonus_iff_a_field_holds_keyword_sample :
  keyword_bonus sample_ToLowerFull sample_final_sigma
    [ [0x5EFA]%N; [0x8BAE]%N; lit "nan"; lit "nan" ] = 1 <->
  exists text word,
    In text [ [0x5EFA]%N; [0x8BAE]%N; lit "nan"; lit "nan" ] /\
    In word keywords /\ contains word text = true.
Proof.
  apply (bonus_iff_a_field_holds_keyword sample_ToLowerFull sample_final_sigma).
  exact sample_table_respects_keywords.
Defined.

Lemma short_row_aborts_run_sample :
  process_questionnaire_responses sample_ToLowerFull sample_final_sigma
      sample_repr sample_uuid4 sample_isoformat sample_Ymd
      sample_df_narrow sample_world = Raise IndexError.
Proof.
  apply (short_row_aborts_run sample_ToLowerFull sample_final_sigma
            sample_repr sample_uuid4 sample_isoformat sample_Ymd
           sample_df_narrow sample_world).
  apply Exists_cons_hd. simpl. lia.
Defined.

Lemma timestamp_aborts_run_sample :
  process_questionnaire_responses sample_ToLowerFull sample_final_sigma
      sample_repr sample_uuid4 sample_isoformat sample_Ymd
      sample_df_dated sample_world = Raise TypeError.
Proof.
  apply (timestamp_aborts_run sample_ToLowerFull sample_final_sigma
            sample_repr sample_uuid4 sample_isoformat sample_Ymd
           sample_df_dated sample_world).
  - repeat (constructor; [simpl; lia |]). constructor.
  - split; [exact sample_columns_distinct | repeat constructor].
  - apply Exists_cons_tl. apply Exists_cons_hd. split; [reflexivity |].
    apply Exists_cons_hd. reflexivity.
Defined.

Lemma int64_code_aborts_run_sample :
  process_questionnaire_responses sample_ToLowerFull sample_final_sigma
      sample_repr sample_uuid4 sample_isoformat sample_Ymd
      sample_df_int64 sample_world = Raise TypeError.
Proof.
  apply (int64_code_aborts_run sample_ToLowerFull sample_final_sigma
            sample_repr sample_uuid4 sample_isoformat sample_Ymd
           sample_df_int64 sample_world).
  - repeat (constructor; [simpl; lia |]). constructor.
  - apply Exists_cons_hd. split; [reflexivity |].
    exists 1001. left. reflexivity.
Defined.

Lemma timestamp_label_aborts_run_sample :
  process_questionnaire_responses sample_ToLowerFull sample_final_sigma
      sample_repr sample_uuid4 sample_isoformat sample_Ymd
      sample_df_dated_label sample_world = Raise TypeError.
Proof.
  apply (timestamp_label_aborts_run sample_ToLowerFull sample_final_sigma
            sample_repr sample_uuid4 sample_isoformat sample_Ymd
           sample_df_dated_label sample_world).
  - repeat (constructor; [simpl; lia |]). constructor.
  - split; [reflexivity | repeat constructor].
  - apply Exists_cons_hd. reflexivity.
  - apply Exists_cons_tl. apply Exists_cons_hd. reflexivity.
Defined.

Lemma run_without_qualifying_rows_sample :
  process_questionnaire_responses sample_ToLowerFull sample_final_sigma
      sample_repr sample_uuid4 sample_isoformat sample_Ymd
      sample_df_quiet sample_world
  = Ok ([], after_export sample_Ymd sample_world (lit "[]") 0).
Proof.
  apply (run_without_qualifying_rows sample_ToLowerFull sample_final_sigma
            sample_repr sample_uuid4 sample_isoformat sample_Ymd
           sample_df_quiet sample_world).
  - repeat (constructor; [simpl; lia |]). constructor.
  - repeat (constructor; [reflexivity |]). constructor.
Defined.

(** A second run on the same day: the file of the first run is
    replaced, the file of another name is kept. *)
Lemma run_effects_sample :
  exists out w' text,
    process_questionnaire_responses sample_ToLowerFull sample_final_sigma
      sample_repr sample_uuid4 sample_isoformat sample_Ymd
      sample_df sample_world_rerun = Ok (out, w') /\
    json_dump sample_repr (PList (map as_dict out)) = Ok text /\
    read_file (files w') (lit "payment_list_20240501.json") = Some text /\
    List.length
      (filter (fun f => str_eqb (fst f) (lit "payment_list_20240501.json"))
              (files w')) = 1%nat /\
    read_file (files w') (lit "notes.txt") = Some (lit "keep") /\
    stdout w' = [summary_line 2] /\
    ticks w' = 5%nat.
Proof.
  eexists _, _.
  destruct (run_effects sample_ToLowerFull sample_final_sigma
            sample_repr sample_uuid4 sample_isoformat sample_Ymd
              sample_df sample_world_rerun _ _ ltac:(vm_compute; reflexivity))
    as [text (Hdump & Hfile & Hone & Hother & Hout & Hticks)].
  exists text. split; [vm_compute; reflexivity |].
  split; [exact Hdump |]. split; [exact Hfile |]. split; [exact Hone |].
  split; [exact (Hother (lit "notes.txt") eq_refl) |].
  split; [exact Hout | exact Hticks].
Defined.

Lemma record_ids_and_times_sample :
  exists out w',
    process_questionnaire_responses sample_ToLowerFull sample_final_sigma
      sample_repr sample_uuid4 sample_isoformat sample_Ymd
      sample_df sample_world = Ok (out, w') /\
    forall i p, nth_error out i = Some p ->
      id p = sample_uuid4 (0 + 2 * i) /\
      created_at p = sample_isoformat (0 + 2 * i + 1).
Proof.
  eexists _, _. split; [vm_compute; reflexivity |].
  eapply (record_ids_and_times sample_ToLowerFull sample_final_sigma
            sample_repr sample_uuid4 sample_isoformat sample_Ymd
            sample_df sample_world).
  vm_compute. reflexivity.
Defined.

Lemma record_ids_distinct_sample :
  exists out w',
    process_questionnaire_responses sample_ToLowerFull sample_final_sigma
      sample_repr sample_uuid4 sample_isoformat sample_Ymd
      sample_df sample_world = Ok (out, w') /\
    List.length out = 2%nat /\
    NoDup (map id out).
Proof.
  eexists _, _. split; [vm_compute; reflexivity |].
  split; [reflexivity |].
  eapply (record_ids_distinct sample_ToLowerFull sample_final_sigma
            sample_repr sample_uuid4 sample_isoformat sample_Ymd
            sample_df sample_world).
  - exact sample_uuid4_injective.
  - vm_compute. reflexivity.
Defined.

Lemma record_scores_3_to_5_sample :
  exists out w',
    process_questionnaire_responses sample_ToLowerFull sample_final_sigma
      sample_repr sample_uuid4 sample_isoformat sample_Ymd
      sample_df sample_world = Ok (out, w') /\
    map quality_score out = [3; 4] /\
    Forall (fun p => 3 <= quality_score p <= 5) out.
Proof.
  eexists _, _. split; [vm_compute; reflexivity |].
  split; [reflexivity |].
  eapply (record_scores_3_to_5 sample_ToLowerFull sample_final_sigma
            sample_repr sample_uuid4 sample_isoformat sample_Ymd
            sample_df sample_world).
  vm_compute. reflexivity.
Defined.

Lemma feedback_data_pairs_labels_with_cells_sample :
  exists out w',
    process_questionnaire_responses sample_ToLowerFull sample_final_sigma
      sample_repr sample_uuid4 sample_isoformat sample_Ymd
      sample_df sample_world = Ok (out, w') /\
    Forall2 (fun p row =>
               feedback_data p
               = combine (columns sample_df) (map box_native (values row)))
            out
            [ mkSeries sample_columns sample_row_long;
              mkSeries sample_columns sample_row_keyword_long ].
Proof.
  eexists _, _. split; [vm_compute; reflexivity |].
  eapply (feedback_data_pairs_labels_with_cells sample_ToLowerFull sample_final_sigma
            sample_repr sample_uuid4 sample_isoformat sample_Ymd
            sample_df sample_world).
  - exact sample_columns_distinct.
  - vm_compute. reflexivity.
Defined.

Lemma run_file_reads_back_sample :
  exists out w' text,
    process_questionnaire_responses sample_ToLowerFull sample_final_sigma
      sample_repr sample_uuid4 sample_isoformat sample_Ymd
      sample_df sample_world = Ok (out, w') /\
    read_file (files w') (lit "payment_list_20240501.json") = Some text /\
    json_load sample_float text = Ok (PList (map as_dict out)).
Proof.
  eexists _, _.
  destruct (run_file_reads_back sample_ToLowerFull sample_final_sigma
            sample_repr sample_uuid4 sample_isoformat sample_Ymd
              sample_float sample_df sample_world _ _ eq_refl
              ltac:(vm_compute; reflexivity)) as [text [Hfile Hload]].
  - repeat (constructor; [exact sample_float_faithful |]). constructor.
  - exists text. split; [vm_compute; reflexivity |].
    split; [exact Hfile | exact Hload].
Defined.
